(** * source_utils: import resolution, class-source assembly, script composition

    A shallow embedding of
    [google/cloud/aiplatform/experimental/vertex_model/utils/source_utils.py]
    and the properties its specification states about it.

    Python strings are [string], read as UTF-8 text: a character is a byte
    together with the continuation bytes that follow it, and the operations
    that count or visit characters ([s[n:]], [s[:-1]], a loop over a string)
    go by characters, not bytes.  Ordered dicts are association lists (their
    iteration order is the list order); the deserializer table, which is only
    ever looked up, is a [gmap].  Code that can raise returns a [result].
    What the interpreter and the standard library provide ([open], [ast.parse],
    [inspect]) is not part of the file under study and is taken as data:
    the record [interp] and the fields of [instance]. *)

From Stdlib Require Import Ascii.
From stdpp Require Import base option list gmap strings pretty.

(** ** Exceptions and results *)

Inductive exn :=
| TypeError
| OSError
| SyntaxError
| AttributeError
| UnboundLocalError
| IndexError
| KeyError.

(** [KeyError] and [IndexError] are the two subclasses of [LookupError]. *)
Definition is_LookupError (e : exn) : bool :=
  match e with
  | IndexError | KeyError => true
  | _ => false
  end.

Inductive result (A : Type) :=
| Ok (a : A)
| Raise (e : exn).
Arguments Ok {A} a.
Arguments Raise {A} e.

#[global] Instance result_ret : MRet result := fun A a => Ok a.
#[global] Instance result_bind : MBind result := fun A B f m =>
  match m with
  | Ok a => f a
  | Raise e => Raise e
  end.

(** ** Python string operations used by the module *)

Definition nl : string := String "010"%char EmptyString.
Definition dot : ascii := "."%char.
Definition newline : ascii := "010"%char.

(** [s.split(sep)] for a one-character separator: never returns the empty
    list, and [sep.join(s.split(sep))] is [s] again. *)
Fixpoint split (sep : ascii) (s : string) : list string :=
  match s with
  | EmptyString => [EmptyString]
  | String c rest =>
      if Ascii.eqb c sep then EmptyString :: split sep rest
      else match split sep rest with
           | piece :: pieces => String c piece :: pieces
           | [] => [String c EmptyString]
           end
  end.

(** [sep.join(l)] *)
Definition join (sep : string) (l : list string) : string := String.concat sep l.
Arguments join : simpl never.

(** A continuation byte of UTF-8, [10xxxxxx]: it belongs to the character
    begun before it. *)
Definition is_continuation (c : ascii) : bool :=
  match c with
  | Ascii _ _ _ _ _ _ b6 b7 => b7 && negb b6
  end.

(** The text does not begin at a character boundary. *)
Definition starts_inside_character (s : string) : bool :=
  match s with
  | String c _ => is_continuation c
  | EmptyString => false
  end.

(** The items a [for] loop over a string visits: its characters, each a
    one-character string. *)
Fixpoint chars (s : string) : list string :=
  match s with
  | EmptyString => []
  | String c rest =>
      match chars rest with
      | next :: later =>
          if starts_inside_character rest then String c next :: later
          else String c EmptyString :: next :: later
      | [] => [String c EmptyString]
      end
  end.

(** [s[:-1]]: all characters but the last *)
Definition drop_last (s : string) : string :=
  foldr String.append EmptyString (removelast (chars s)).

(** [s[n:]]: the characters from the [n]-th on *)
Definition slice_from (n : nat) (s : string) : string :=
  foldr String.append EmptyString (drop n (chars s)).

(** [s.startswith(p)] *)
Definition startswith (s p : string) : bool := String.prefix p s.

(** [l[i]] on a Python list *)
Definition getitem {A} (l : list A) (i : nat) : result A :=
  match l !! i with
  | Some a => Ok a
  | None => Raise IndexError
  end.

(** ** Python values that reach the composer *)

Inductive value :=
| VInt (z : Z)
| VStr (s : string)
| VBool (b : bool)
| VNone
| VObj (text : string).   (* any other object, with the text [str] gives it *)

(** [str(v)], which is also what an f-string field [{v}] renders. *)
Definition str (v : value) : string :=
  match v with
  | VInt z => pretty z
  | VStr s => s
  | VBool true => "True"
  | VBool false => "False"
  | VNone => "None"
  | VObj text => text
  end.

(** [type(v) is str] *)
Definition type_is_str (v : value) : bool :=
  match v with
  | VStr _ => true
  | _ => false
  end.

(** ** The syntax tree [ast.parse] returns, as far as [get_imports] reads it *)

Module ast.

Record alias := { name : string; asname : option string }.

(** The children of the [Module] node. *)
Inductive stmt :=
| Import (names : list alias)
| ImportFrom (module : option string) (names : list alias) (level : nat)
| Other.

End ast.

(** What is handed to [open]: [get_imports] is written for a path;
    [_make_source] passes it what [inspect.getmodule] returns, a module
    object or [None]. *)
Inductive fileref :=
| PathStr (p : string)
| ModuleObject (qualname : string)
| NoneObject.

(** The interpreter: [open(path).read()], for whatever object is passed as
    [path], and [ast.parse(text, path)]. *)
Record interp := {
  open_read : fileref -> result string;
  ast_parse : string -> result (list ast.stmt);
}.

(** ** get_imports *)

(** [Import = namedtuple("Import", ["module", "name", "alias"])] *)
Record Import := mkImport {
  module : list string;
  name : list string;
  alias : option string;
}.

(** A generator object: what it has still to yield, and how its body ends
    after the last yield ([None]: it returns).  The body of [get_imports]
    reads the file once, on the first [next], and has no other effect, so the
    object is a cursor over the run of its body. *)
Record generator := {
  pending : list Import;
  ending : option exn;
}.

Inductive step :=
| Yield (r : Import)
| StopIteration
| Raised (e : exn).

Definition exhausted : generator := {| pending := []; ending := None |}.

(** [next(g)]: a finished generator, also one that raised, stays finished. *)
Definition next (g : generator) : step * generator :=
  match pending g with
  | r :: rest => (Yield r, {| pending := rest; ending := ending g |})
  | [] =>
      match ending g with
      | Some e => (Raised e, exhausted)
      | None => (StopIteration, exhausted)
      end
  end.

(** One turn of [for node in ast.iter_child_nodes(root)]: the records the
    inner loop over [node.names] yields.  [node.module.split(".")] is an
    attribute access on [None] when the node has no module. *)
Definition node_records (node : ast.stmt) : result (list Import) :=
  match node with
  | ast.Import names =>
      let module := [] in
      Ok (map (fun n => mkImport module (split dot (ast.name n)) (ast.asname n)) names)
  | ast.ImportFrom m names _ =>
      match m with
      | Some path =>
          let module := split dot path in
          Ok (map (fun n => mkImport module (split dot (ast.name n)) (ast.asname n)) names)
      | None => Raise AttributeError
      end
  | ast.Other => Ok []
  end.

(** The run of the outer loop: everything yielded, then how it ends. *)
Fixpoint run_nodes (nodes : list ast.stmt) : list Import * option exn :=
  match nodes with
  | [] => ([], None)
  | node :: rest =>
      match node_records node with
      | Raise e => ([], Some e)
      | Ok records =>
          let '(later, e) := run_nodes rest in (records ++ later, e)
      end
  end.

Definition get_imports (py : interp) (path : fileref) : generator :=
  match open_read py path with
  | Raise e => {| pending := []; ending := Some e |}
  | Ok text =>
      match ast_parse py text with
      | Raise e => {| pending := []; ending := Some e |}
      | Ok root =>
          let '(records, e) := run_nodes root in
          {| pending := records; ending := e |}
      end
  end.

(** A full traversal ([for r in g], [list(g)]): the records it meets, the
    exception that stopped it if any, and the generator afterwards. *)
Fixpoint traverse_upto (fuel : nat) (g : generator)
  : list Import * option exn * generator :=
  match fuel with
  | O => ([], None, g)
  | S fuel' =>
      match next g with
      | (Yield r, g') =>
          let '(records, e, g'') := traverse_upto fuel' g' in
          (r :: records, e, g'')
      | (StopIteration, g') => ([], None, g')
      | (Raised e, g') => ([], Some e, g')
      end
  end.

Definition traverse (g : generator) : list Import * option exn * generator :=
  traverse_upto (S (length (pending g))) g.

(** [for r in g: s = body(r, s)], driven by [next]. *)
Fixpoint for_in_upto {S : Type} (fuel : nat) (g : generator)
    (body : Import -> S -> result S) (s : S) : result S :=
  match fuel with
  | O => Ok s
  | S fuel' =>
      match next g with
      | (Yield r, g') => s' ← body r s; for_in_upto fuel' g' body s'
      | (StopIteration, _) => Ok s
      | (Raised e, _) => Raise e
      end
  end.

Definition for_in {S : Type} (g : generator)
    (body : Import -> S -> result S) (s : S) : result S :=
  for_in_upto (Datatypes.S (length (pending g))) g body s.

(** [for item in items: s = body(s, item)] where the body can raise. *)
Fixpoint for_items {A S : Type} (body : S -> A -> result S)
    (items : list A) (s : S) : result S :=
  match items with
  | [] => Ok s
  | item :: rest => s' ← body s item; for_items body rest s'
  end.

(** ** SourceMaker and _make_class_source *)

Record SourceMaker := { source : list string }.

(** [SourceMaker.__init__] *)
Definition SourceMaker_init (cls_name : string) : SourceMaker :=
  {| source := ["class " +:+ cls_name +:+ "(torch.nn.Module):"] |}.

(** [SourceMaker.add_method] *)
Definition add_method (self : SourceMaker) (method_str : string) : SourceMaker :=
  {| source := source self ++ split newline method_str |}.

(** A member of the instance as [inspect] shows it. *)
Record member := {
  ismethod : bool;               (* inspect.ismethod(value) *)
  isfunction : bool;             (* inspect.isfunction(value) *)
  repr : string;                 (* value.__repr__() *)
  getsource : result string;     (* inspect.getsource(value) *)
}.

(** Modelled from the spec: the type-to-deserializer table is declared by the
    base class, outside this file; an entry exposes the name of its
    deserializer, which the code reads as [entry[0].__name__]. *)
Record registry_entry := { deserializer_name : string }.

(** The live object, as far as this module reads it. *)
Record instance := {
  class_name : string;                           (* obj.__class__.__name__ *)
  class_module : fileref;                        (* inspect.getmodule(obj.__class__) *)
  getmembers : list (string * member);           (* inspect.getmembers(obj) *)
  _constructor_arguments : list value * list (string * value);
  (* inspect.signature(obj.__class__.__init__).bind(obj, *a, **kw).args;
     the first element is obj itself *)
  init_bind_args : list value -> list (string * value) -> result (list value);
  _data_serialization_mapping : gmap string registry_entry;
}.

(** [obj.<attr>] for a method of the instance: the member of that name,
    AttributeError when there is none. *)
Definition getattr (obj : instance) (attr : string) : result member :=
  match list_find (fun kv => kv.1 = attr) (getmembers obj) with
  | Some (_, kv) => Ok kv.2
  | None => Raise AttributeError
  end.

(** The condition of the member scan.  [len("<bound method ")] is 14, the
    text being ASCII; the cut [[14:]] goes by characters. *)
Definition selected (cls_name : string) (value : member) : bool :=
  (ismethod value || isfunction value)
  && startswith (slice_from (String.length "<bound method ") (repr value)) cls_name.

Fixpoint scan_members (cls_name : string) (members : list (string * member))
    (source_maker : SourceMaker) : result SourceMaker :=
  match members with
  | [] => Ok source_maker
  | (key, value) :: rest =>
      if selected cls_name value then
        text ← getsource value;
        scan_members cls_name rest (add_method source_maker text)
      else scan_members cls_name rest source_maker
  end.

(** The accumulator just before the final join. *)
Definition class_source_lines (obj : instance) : result SourceMaker :=
  let source_maker := SourceMaker_init (class_name obj) in
  source_maker ← scan_members (class_name obj) (getmembers obj) source_maker;
  fit ← getattr obj "fit";
  text ← getsource fit;
  let source_maker := add_method source_maker text in
  predict ← getattr obj "predict";
  text ← getsource predict;
  let source_maker := add_method source_maker text in
  Ok source_maker.

Definition _make_class_source (obj : instance) : result string :=
  source_maker ← class_source_lines obj;
  Ok (join nl (source source_maker)).

(** ** _make_source *)

(** Reading the local [src]: it is unbound until its first assignment. *)
Definition load_local (src : option string) : result string :=
  match src with
  | Some s => Ok s
  | None => Raise UnboundLocalError
  end.

(** One of the three blocks of the import loop:
    [if len(field) > 0: src = src + keyword; for x in field: src = src + x + "."; src = src[:-1]]
    ([len(field) > 0] says that the text is not empty, whether bytes or
    characters are counted; the loop goes by characters.) *)
Definition render_field (src : option string) (field keyword : string)
  : result (option string) :=
  if (0 <? String.length field)%nat then
    s ← load_local src;
    let s := s +:+ keyword in
    let s := foldl (fun acc item => acc +:+ item +:+ ".") s (chars field) in
    Ok (Some (drop_last s))
  else Ok src.

(** The body of [for my_import in imports].  [my_import[1]] is the [name]
    field of the record, a list of strings; the loop indexes into it. *)
Definition render_import (my_import : Import) (src : option string)
  : result (option string) :=
  let field := name my_import in
  f0 ← getitem field 0;
  src ← render_field src f0 "from ";
  f1 ← getitem field 1;
  src ← render_field src f1 " import ";
  f2 ← getitem field 2;
  src ← render_field src f2 " as ";
  s ← load_local src;
  Ok (Some (s +:+ nl)).

Definition prologue : list string :=
  [ "import os";
    "from google.cloud.aiplatform.experimental.vertex_model import base";
    "from google.cloud.aiplatform.experimental.vertex_model.serializers.pandas import _deserialize_dataframe";
    "from google.cloud.aiplatform.experimental.vertex_model.serializers.pytorch import _deserialize_dataloader";
    "from google.cloud.aiplatform.experimental.vertex_model.serializers import model" ].

(** [obj._data_serialization_mapping[parameter_type][0]] *)
Definition lookup_deserializer (obj : instance) (parameter_type : string)
  : result registry_entry :=
  match _data_serialization_mapping obj !! parameter_type with
  | Some entry => Ok entry
  | None => Raise KeyError
  end.

(** The body of the loop over [param_name_to_serialized_info.items()].
    (The [print] of the table's keys writes to standard output only and is
    left out.) *)
Definition render_serialized (obj : instance) (src : string)
    (item : string * (string * string)) : result string :=
  let '(parameter_name, (parameter_uri, parameter_type)) := item in
  deserializer ← lookup_deserializer obj parameter_type;
  Ok (src +:+ parameter_name +:+ "=" +:+ deserializer_name deserializer
          +:+ "('" +:+ parameter_uri +:+ "'), ").

(** The body of the loop over [pass_through_params.items()]. *)
Definition render_pass_through (src : string) (item : string * value) : string :=
  let '(parameter_name, parameter_value) := item in
  if type_is_str parameter_value then
    src +:+ parameter_name +:+ "='" +:+ str parameter_value +:+ "', "
  else
    src +:+ parameter_name +:+ "=" +:+ str parameter_value +:+ ", ".

Definition persist_statement : string :=
  "model._serialize_local_model(os.getenv('AIP_MODEL_DIR'), my_model, my_model.training_mode)".

Definition _make_source (py : interp) (cls_source cls_name : string)
    (instance_method : option string)
    (pass_through_params : list (string * value))
    (param_name_to_serialized_info : list (string * (string * string)))
    (obj : instance) : result string :=
  let module := class_module obj in
  let imports := get_imports py module in
  _ ← for_in imports render_import None;
  let src := join nl (prologue ++ [cls_source]) in
  class_args ← init_bind_args obj (_constructor_arguments obj).1
                                  (_constructor_arguments obj).2;
  let src := src +:+ "my_model = " +:+ cls_name +:+ "("
                 +:+ join "," (map str (tail class_args)) +:+ ")" +:+ nl in
  src ← match instance_method with
        | Some method =>
            let src := src +:+ "my_model." +:+ method +:+ "(" in
            src ← for_items (render_serialized obj) param_name_to_serialized_info src;
            let src := foldl render_pass_through src pass_through_params in
            Ok (src +:+ ")" +:+ nl)
        | None => Ok src
        end;
  Ok (src +:+ persist_statement).

(** ** Sample inputs *)

(** An interpreter in which the module's file holds [text] and parsing it
    gives [root]. *)
Definition sample_interp (text : string) (root : result (list ast.stmt)) : interp :=
  {| open_read := fun _ => Ok text; ast_parse := fun _ => root |}.

Definition plain_name (n : string) : ast.alias :=
  {| ast.name := n; ast.asname := None |}.

(** [x = 1] *)
Definition module_without_imports : interp :=
  sample_interp "x = 1" (Ok [ast.Other]).

(** [import a.b.c] *)
Definition module_import_abc : interp :=
  sample_interp "import a.b.c" (Ok [ast.Import [plain_name "a.b.c"]]).

(** [import os] *)
Definition module_import_os : interp :=
  sample_interp "import os" (Ok [ast.Import [plain_name "os"]]).

(** [from . import x] *)
Definition module_relative_import : interp :=
  sample_interp "from . import x" (Ok [ast.ImportFrom None [plain_name "x"] 1]).

Definition fit_member : member :=
  {| ismethod := true; isfunction := false;
     repr := "<bound method ClassName.fit of ClassName()>";
     getsource := Ok ("    def fit(self, data):" +:+ nl +:+ "        pass" +:+ nl) |}.

Definition predict_member : member :=
  {| ismethod := true; isfunction := false;
     repr := "<bound method ClassName.predict of ClassName()>";
     getsource := Ok ("    def predict(self, data):" +:+ nl +:+ "        return data" +:+ nl) |}.

(** An inherited method: not selected by the scan. *)
Definition train_member : member :=
  {| ismethod := true; isfunction := false;
     repr := "<bound method Module.train of ClassName()>";
     getsource := Ok ("    def train(self):" +:+ nl +:+ "        return self" +:+ nl) |}.

(** An instance of [ClassName], whose [__init__] takes positional arguments
    after [self], constructed with [args]. *)
Definition constructed_with (args : list value) : instance :=
  {| class_name := "ClassName";
     class_module := ModuleObject "user_module";
     getmembers := [("fit", fit_member); ("predict", predict_member);
                    ("train", train_member)];
     _constructor_arguments := (args, []);
     init_bind_args := fun a kw => Ok (VObj "ClassName()" :: a ++ map snd kw);
     _data_serialization_mapping :=
       {[ "Table" := {| deserializer_name := "load_table" |} ]} |}.

(** [ClassName(5, "x")] *)
Definition sample_obj : instance := constructed_with [VInt 5; VStr "x"].

Definition sample_serialized : list (string * (string * string)) :=
  [("table", ("gs://bucket/t.parquet", "Table"))].

Definition sample_pass_through : list (string * value) :=
  [("epochs", VInt 5); ("name", VStr "run1")].

Definition unregistered_serialized : list (string * (string * string)) :=
  [("frame", ("gs://bucket/f.csv", "Frame"))].

(** ** Notions the statements below use *)

(** The records of a traversal, and of a second traversal of the same
    generator object. *)
Definition first_traversal (g : generator) : list Import := (traverse g).1.1.
Definition second_traversal (g : generator) : list Import :=
  (traverse (traverse g).2).1.1.

(** The statements the loop of [get_imports] goes through: those before the
    first from-import without a module, where it raises; all of them when
    there is none. *)
Fixpoint statements_reached (root : list ast.stmt) : list ast.stmt :=
  match root with
  | [] => []
  | ast.ImportFrom None _ _ :: _ => []
  | node :: rest => node :: statements_reached rest
  end.

(** An import statement that names where it imports from: every statement but
    a [from . import x]. *)
Definition names_its_module (node : ast.stmt) : Prop :=
  match node with
  | ast.ImportFrom None _ _ => False
  | _ => True
  end.

(** The Import Records of one statement in the words of the specification:
    one per imported name; an empty source path for [import X]; the split
    module path for [from X import Y]; nothing for other statements. *)
Definition records_of_statement (node : ast.stmt) : list Import :=
  match node with
  | ast.Import names =>
      map (fun n => {| module := []; name := split dot (ast.name n);
                       alias := ast.asname n |}) names
  | ast.ImportFrom (Some path) names _ =>
      map (fun n => {| module := split dot path; name := split dot (ast.name n);
                       alias := ast.asname n |}) names
  | _ => []
  end.

(** A top-level import statement with at least one imported name (the
    parser produces no other). *)
Definition imports_a_name (node : ast.stmt) : Prop :=
  match node with
  | ast.Import (_ :: _) | ast.ImportFrom _ (_ :: _) _ => True
  | _ => False
  end.

(** The resolver yields no record for the module of [obj] and ends normally:
    what lets the import loop of [_make_source] run to completion. *)
Definition resolver_yields_nothing (py : interp) (obj : instance) : Prop :=
  traverse (get_imports py (class_module obj)) = ([], None, exhausted).

(** Texts put one after the other. *)
Definition cat (l : list string) : string := foldr String.append EmptyString l.

(** The argument the specification gives for a Serialized-Parameter
    Descriptor whose deserializer is [d]:
    [<name>=<deserializer-name>('<storage location>'), ] *)
Definition serialized_argument (item : string * (string * string))
    (d : registry_entry) : string :=
  item.1 +:+ "=" +:+ deserializer_name d +:+ "('" +:+ item.2.1 +:+ "'), ".

(** The argument the specification gives for a Pass-through Parameter:
    [<name>='<value>', ] for a string, [<name>=<value>, ] otherwise. *)
Definition pass_through_argument (item : string * value) : string :=
  match item.2 with
  | VStr text => item.1 +:+ "='" +:+ text +:+ "', "
  | v => item.1 +:+ "=" +:+ str v +:+ ", "
  end.

(** The prologue, the class source and the instantiation statement for the
    bound constructor arguments [bound] (the first of which is [self]). *)
Definition script_head (cls_source cls_name : string) (bound : list value) : string :=
  join nl (prologue ++ [cls_source])
  +:+ "my_model = " +:+ cls_name +:+ "(" +:+ join "," (map str (tail bound)) +:+ ")" +:+ nl.

(** The type of a descriptor has no entry in the table of [obj]. *)
Definition unregistered (obj : instance) (item : string * (string * string)) : Prop :=
  _data_serialization_mapping obj !! item.2.2 = None.

(** ** Notions and sample inputs of the further properties *)

(** An import statement of either kind. *)
Definition is_import (node : ast.stmt) : bool :=
  match node with
  | ast.Other => false
  | _ => true
  end.

(** The names a statement imports. *)
Definition names_of (node : ast.stmt) : list ast.alias :=
  match node with
  | ast.Import names | ast.ImportFrom _ names _ => names
  | ast.Other => []
  end.

(** The statement with the level of a from-import (the number of leading
    dots) set to zero. *)
Definition drop_level (node : ast.stmt) : ast.stmt :=
  match node with
  | ast.ImportFrom m names _ => ast.ImportFrom m names 0
  | _ => node
  end.

(** [c in s] *)
Fixpoint contains (c : ascii) (s : string) : bool :=
  match s with
  | EmptyString => false
  | String c' rest => Ascii.eqb c' c || contains c rest
  end.

(** An interpreter over a few files: [open] wants a path and finds its text
    in [files]; [ast.parse] knows the syntax trees listed in [parses]. *)
Definition sample_files (files : list (string * string))
    (parses : list (string * list ast.stmt)) : interp :=
  {| open_read := fun ref =>
       match ref with
       | PathStr p =>
           match list_find (fun kv => kv.1 = p) files with
           | Some (_, kv) => Ok kv.2
           | None => Raise OSError
           end
       | _ => Raise TypeError
       end;
     ast_parse := fun text =>
       match list_find (fun kv => kv.1 = text) parses with
       | Some (_, kv) => Ok kv.2
       | None => Raise SyntaxError
       end |}.

Definition root_mixed : list ast.stmt :=
  [ ast.Import [plain_name "os.path"];
    ast.Other;
    ast.ImportFrom (Some "a.b")
      [ {| ast.name := "c"; ast.asname := Some "d" |}; plain_name "e" ] 0;
    ast.Other ].

Definition sample_project : interp :=
  sample_files
    [ ("mixed.py", "import os.path; x = 1; from a.b import c as d, e; y = 2");
      ("imports.py", "import os.path; from a.b import c as d, e");
      ("relative.py", "from ..pkg import x");
      ("absolute.py", "from pkg import x");
      ("broken.py", "import") ]
    [ ("import os.path; x = 1; from a.b import c as d, e; y = 2", root_mixed);
      ("import os.path; from a.b import c as d, e", List.filter is_import root_mixed);
      ("from ..pkg import x", [ast.ImportFrom (Some "pkg") [plain_name "x"] 2]);
      ("from pkg import x", [ast.ImportFrom (Some "pkg") [plain_name "x"] 0]) ].

(** A method of [ClassName] defined where [inspect] finds no source. *)
Definition sourceless_member : member :=
  {| ismethod := true; isfunction := false;
     repr := "<bound method ClassName.helper of ClassName()>";
     getsource := Raise OSError |}.

(** An attribute that is not a method. *)
Definition data_member : member :=
  {| ismethod := false; isfunction := false;
     repr := "3"; getsource := Raise TypeError |}.

(** An instance of [ClassName] with the given members. *)
Definition instance_with (members : list (string * member)) : instance :=
  {| class_name := "ClassName";
     class_module := ModuleObject "user_module";
     getmembers := members;
     _constructor_arguments := ([], []);
     init_bind_args := fun a kw => Ok (VObj "ClassName()" :: a ++ map snd kw);
     _data_serialization_mapping := ∅ |}.

(** An instance whose recorded constructor arguments do not fit the
    signature of [__init__]: binding them raises TypeError. *)
Definition unbindable_obj : instance :=
  {| class_name := "ClassName";
     class_module := ModuleObject "user_module";
     getmembers := [("fit", fit_member); ("predict", predict_member)];
     _constructor_arguments := ([VInt 1; VInt 2; VInt 3], []);
     init_bind_args := fun _ _ => Raise TypeError;
     _data_serialization_mapping := ∅ |}.

(** The sources of the sample methods. *)
Definition fit_text : string :=
  "    def fit(self, data):" +:+ nl +:+ "        pass" +:+ nl.
Definition predict_text : string :=
  "    def predict(self, data):" +:+ nl +:+ "        return data" +:+ nl.

(** A function stored on the instance, of a class named with Cyrillic
    letters before [ClassName]. *)
Definition cyrillic_member : member :=
  {| ismethod := false; isfunction := true;
     repr := "<function БазаClassName.helper at 0x7f>";
     getsource := Ok ("    def helper(self):" +:+ nl +:+ "        pass" +:+ nl) |}.

(** * Properties *)

(** ** Strings *)

Section strings.
Implicit Types (s t u : string) (c : ascii) (l : list string).

Lemma str_app_cons c s t : String c s +:+ t = String c (s +:+ t).
Proof. reflexivity. Qed.

Lemma str_app_nil_r s : s +:+ EmptyString = s.
Proof. induction s as [|c s IH]; [reflexivity|]. by rewrite str_app_cons, IH. Qed.

Lemma str_app_assoc s t u : (s +:+ t) +:+ u = s +:+ t +:+ u.
Proof.
  induction s as [|c s IH]; [reflexivity|].
  by rewrite !str_app_cons, IH.
Qed.

Lemma join_cons sep s l : l ≠ [] → join sep (s :: l) = s +:+ sep +:+ join sep l.
Proof. intros Hl. destruct l; [congruence|reflexivity]. Qed.

Lemma join_app sep l1 l2 :
  l1 ≠ [] → l2 ≠ [] →
  join sep (l1 ++ l2) = join sep l1 +:+ sep +:+ join sep l2.
Proof.
  intros H1 H2. induction l1 as [|s l1 IH]; [done|].
  destruct l1 as [|s' l1].
  - simpl app. by rewrite join_cons.
  - change ((s :: s' :: l1) ++ l2) with (s :: (s' :: l1) ++ l2).
    rewrite (join_cons sep s ((s' :: l1) ++ l2)) by done.
    rewrite (join_cons sep s (s' :: l1)) by done.
    rewrite IH by done. by rewrite !str_app_assoc.
Qed.

Lemma split_not_nil sep s : split sep s ≠ [].
Proof.
  induction s as [|c s IH]; simpl; [done|].
  destruct (Ascii.eqb c sep); [done|]. by destruct (split sep s).
Qed.

(** [sep.join(s.split(sep)) == s] *)
Lemma join_split sep s : join (String sep EmptyString) (split sep s) = s.
Proof.
  induction s as [|c s IH]; [reflexivity|]. simpl.
  destruct (Ascii.eqb_spec c sep) as [->|_].
  - rewrite join_cons by apply split_not_nil. by rewrite IH.
  - pose proof (split_not_nil sep s) as Hne.
    destruct (split sep s) as [|p ps]; [done|].
    destruct ps as [|p' ps].
    + change (join (String sep EmptyString) [p]) with p in IH.
      change (join (String sep EmptyString) [String c p]) with (String c p).
      by rewrite IH.
    + rewrite join_cons in IH by done. rewrite join_cons by done.
      by rewrite str_app_cons, IH.
Qed.

Lemma join_split_lines s : join nl (split newline s) = s.
Proof. apply (join_split newline). Qed.

(** Splitting every block into lines and joining the lines gives the blocks
    joined. *)
Lemma join_lines l :
  join nl (concat (map (split newline) l)) = join nl l.
Proof.
  induction l as [|s l IH]; [reflexivity|].
  destruct l as [|s' l].
  - simpl. rewrite app_nil_r. apply join_split_lines.
  - change (concat (map (split newline) (s :: s' :: l)))
      with (split newline s ++ concat (map (split newline) (s' :: l))).
    assert (concat (map (split newline) (s' :: l)) ≠ []) as Hne.
    { simpl. intros Hnil. apply app_eq_nil in Hnil as [Hnil _].
      by apply split_not_nil in Hnil. }
    rewrite join_app by (apply split_not_nil || done).
    rewrite IH, (join_cons nl s (s' :: l)) by done.
    by rewrite join_split_lines.
Qed.

End strings.

(** ** The generator protocol *)

Lemma traverse_upto_enough fuel g :
  length (pending g) < fuel →
  traverse_upto fuel g = (pending g, ending g, exhausted).
Proof.
  revert g. induction fuel as [|fuel IH]; intros [p e] Hfuel; simpl in *; [lia|].
  unfold next; simpl. destruct p as [|r p]; simpl.
  - by destruct e.
  - rewrite IH by (simpl in *; lia). reflexivity.
Qed.

(** A traversal meets everything pending, ends the way the body ends, and
    leaves the generator exhausted. *)
Lemma traverse_spec g : traverse g = (pending g, ending g, exhausted).
Proof. apply traverse_upto_enough. lia. Qed.

Lemma for_in_empty {S} (g : generator) (body : Import → S → result S) s :
  pending g = [] → ending g = None → for_in g body s = Ok s.
Proof. destruct g as [p e]; simpl. by intros -> ->. Qed.

Lemma for_in_ends_raising {S} (g : generator) (body : Import → S → result S) s e :
  pending g = [] → ending g = Some e → for_in g body s = Raise e.
Proof. destruct g as [p e']; simpl. by intros -> ->. Qed.

Lemma for_in_body_raises {S} (g : generator) (body : Import → S → result S) s r rest e :
  pending g = r :: rest → body r s = Raise e → for_in g body s = Raise e.
Proof.
  destruct g as [p e']; simpl. intros -> Hbody.
  unfold for_in, next; simpl. unfold next; simpl. by rewrite Hbody.
Qed.

(** ** get_imports *)

Lemma run_nodes_absolute root :
  Forall names_its_module root →
  run_nodes root = (concat (map records_of_statement root), None).
Proof.
  induction 1 as [|node root Hnode _ IH]; [reflexivity|].
  simpl. rewrite IH.
  destruct node as [names|[path|] names level|]; simpl in *; done.
Qed.

(** On a module whose import statements all name their module, the records
    are those of the specification, in source order, and the traversal ends
    normally. *)
Lemma get_imports_records py path text root :
  open_read py path = Ok text →
  ast_parse py text = Ok root →
  Forall names_its_module root →
  traverse (get_imports py path)
  = (concat (map records_of_statement root), None, exhausted).
Proof.
  intros Hopen Hparse Hroot. rewrite traverse_spec.
  unfold get_imports. rewrite Hopen, Hparse, (run_nodes_absolute _ Hroot).
  reflexivity.
Qed.

(** The only exception the loop over the nodes raises is the attribute
    access on a missing module. *)
Lemma run_nodes_relative root names level :
  ast.ImportFrom None names level ∈ root →
  (run_nodes root).2 = Some AttributeError.
Proof.
  induction root as [|node root IH]; intros Hin.
  - by apply elem_of_nil in Hin.
  - apply elem_of_cons in Hin as [<-|Hin]; [reflexivity|].
    simpl. destruct (node_records node) as [records|e] eqn:Hnode.
    + specialize (IH Hin). destruct (run_nodes root) as [later e]. exact IH.
    + destruct node as [?|[?|] ? ?|]; by simplify_eq/=.
Qed.

(** The loop stops at the first from-import without a module: the records of
    the statements before it have been yielded, nothing is yielded for it or
    for any statement after it. *)
Lemma run_nodes_stops before names level after :
  Forall names_its_module before →
  run_nodes (before ++ ast.ImportFrom None names level :: after)
  = (concat (map records_of_statement before), Some AttributeError).
Proof.
  induction 1 as [|node before Hnode _ IH]; [reflexivity|].
  simpl. rewrite IH.
  destruct node as [?|[?|] ? ?|]; simpl in *; done.
Qed.

(** C5 (where the code departs from it).  A syntactically valid module with
    a from-import that names no module ([from . import x]): the resolver
    yields the records of the statements before it and then raises
    AttributeError; the names that statement imports, and those of every
    later import statement, get no record. *)
Theorem C5_relative_import_yields_no_record py path text before names level after :
  open_read py path = Ok text →
  ast_parse py text = Ok (before ++ ast.ImportFrom None names level :: after) →
  Forall names_its_module before →
  traverse (get_imports py path)
  = (concat (map records_of_statement before), Some AttributeError, exhausted).
Proof.
  intros Hopen Hparse Hbefore. rewrite traverse_spec.
  unfold get_imports. rewrite Hopen, Hparse, (run_nodes_stops _ _ _ _ Hbefore).
  reflexivity.
Qed.

(** The module [import os], [from . import x], [import sys]: one record,
    for [os]. *)
Lemma C5_witness :
  traverse (get_imports
              (sample_interp "import os; from . import x; import sys"
                 (Ok ([ast.Import [plain_name "os"]]
                      ++ ast.ImportFrom None [plain_name "x"] 1
                         :: [ast.Import [plain_name "sys"]])))
              (PathStr "pkg/mod.py"))
  = (concat (map records_of_statement [ast.Import [plain_name "os"]]),
     Some AttributeError, exhausted).
Proof.
  apply (C5_relative_import_yields_no_record _ (PathStr "pkg/mod.py")
           "import os; from . import x; import sys"
           [ast.Import [plain_name "os"]] [plain_name "x"] 1
           [ast.Import [plain_name "sys"]]).
  - reflexivity.
  - reflexivity.
  - repeat constructor.
Defined.

(** C8 (as stated, refuted).  For the module [import os], a second traversal
    of the returned sequence does not yield the records of the first. *)
Lemma C8_counterexample :
  second_traversal (get_imports module_import_os (PathStr "mod.py"))
  ≠ first_traversal (get_imports module_import_os (PathStr "mod.py")).
Proof. vm_compute. discriminate. Qed.

Lemma run_nodes_reached root :
  (run_nodes root).1 = concat (map records_of_statement (statements_reached root)).
Proof.
  induction root as [|node root IH]; [reflexivity|].
  destruct node as [names|[path|] names level|]; simpl in *;
    try done; destruct (run_nodes root); simpl in *; by rewrite IH.
Qed.

Lemma statements_reached_all root :
  Forall names_its_module root → statements_reached root = root.
Proof.
  induction 1 as [|node root Hnode _ IH]; [reflexivity|].
  destruct node as [names|[path|] names level|]; simpl in *; by rewrite ?IH.
Qed.

(** C8 (amended).  The sequence the resolver returns for a parsed module is
    single-pass.  Its first traversal yields, in source order, the records of
    the module's import statements: one per imported name, for every
    statement up to the first from-import without a module (for every
    statement when each from-import names its module); it leaves the
    sequence exhausted.  A second traversal of the same sequence yields no
    record and ends normally. *)
Theorem C8_single_pass py path text root :
  open_read py path = Ok text →
  ast_parse py text = Ok root →
  first_traversal (get_imports py path)
  = concat (map records_of_statement (statements_reached root))
  ∧ (Forall names_its_module root →
     first_traversal (get_imports py path)
     = concat (map records_of_statement root))
  ∧ (traverse (get_imports py path)).2 = exhausted
  ∧ second_traversal (get_imports py path) = []
  ∧ traverse (traverse (get_imports py path)).2 = ([], None, exhausted).
Proof.
  intros Hopen Hparse.
  assert (first_traversal (get_imports py path)
          = concat (map records_of_statement (statements_reached root))) as Hfirst.
  { unfold first_traversal. rewrite traverse_spec.
    unfold get_imports. rewrite Hopen, Hparse.
    rewrite <- run_nodes_reached. by destruct (run_nodes root). }
  split; [exact Hfirst|]. split.
  - intros Hroot. by rewrite Hfirst, (statements_reached_all _ Hroot).
  - unfold second_traversal. by rewrite !traverse_spec.
Qed.

(** [import os.path], an assignment, [from a.b import c as d, e], an
    assignment: three records the first time, none the second. *)
Lemma C8_witness :
  first_traversal (get_imports sample_project (PathStr "mixed.py"))
  = concat (map records_of_statement (statements_reached root_mixed))
  ∧ (Forall names_its_module root_mixed →
     first_traversal (get_imports sample_project (PathStr "mixed.py"))
     = concat (map records_of_statement root_mixed))
  ∧ (traverse (get_imports sample_project (PathStr "mixed.py"))).2 = exhausted
  ∧ second_traversal (get_imports sample_project (PathStr "mixed.py")) = []
  ∧ traverse (traverse (get_imports sample_project (PathStr "mixed.py"))).2
    = ([], None, exhausted).
Proof.
  apply (C8_single_pass sample_project (PathStr "mixed.py")
           "import os.path; x = 1; from a.b import c as d, e; y = 2" root_mixed);
    reflexivity.
Defined.

(** C9.  When the parsed module contains a from-import whose node carries no
    module (as [from . import x]), traversing the resolver's result ends in
    an AttributeError, raised by the split of the missing module path; the
    source was parsed, so this is not the syntax error of an unparsable
    module. *)
Theorem C9_relative_import_attribute_error py path text root names level :
  open_read py path = Ok text →
  ast_parse py text = Ok root →
  ast.ImportFrom None names level ∈ root →
  ∃ records,
    traverse (get_imports py path) = (records, Some AttributeError, exhausted)
    ∧ AttributeError ≠ SyntaxError.
Proof.
  intros Hopen Hparse Hin. rewrite traverse_spec.
  unfold get_imports. rewrite Hopen, Hparse.
  pose proof (run_nodes_relative _ _ _ Hin) as Hend.
  destruct (run_nodes root) as [records e]; simpl in *; subst e.
  by exists records.
Qed.

Lemma C9_witness :
  ∃ records,
    traverse (get_imports module_relative_import (PathStr "pkg/mod.py"))
    = (records, Some AttributeError, exhausted)
    ∧ AttributeError ≠ SyntaxError.
Proof.
  apply (C9_relative_import_attribute_error module_relative_import
           (PathStr "pkg/mod.py") "from . import x"
           [ast.ImportFrom None [plain_name "x"] 1] [plain_name "x"] 1).
  - reflexivity.
  - reflexivity.
  - left.
Defined.

(** ** _make_class_source *)

(** The scan appends, to whatever the accumulator holds, the lines of the
    sources of the selected members, in the order of the member list. *)
Lemma scan_members_appends cls_name members :
  ∀ source_maker srcs,
    mapM (λ kv, getsource kv.2)
         (List.filter (λ kv : string * member, selected cls_name kv.2) members) = Ok srcs →
    scan_members cls_name members source_maker
    = Ok {| source := source source_maker ++ concat (map (split newline) srcs) |}.
Proof.
  induction members as [|[key value] members IH]; intros [lines] srcs Hsrcs.
  - simpl in *. injection Hsrcs as <-. simpl. by rewrite app_nil_r.
  - simpl in *. destruct (selected cls_name value); [|by apply IH].
    simpl in Hsrcs. destruct (getsource value) as [text|e]; [|done].
    simpl in *.
    destruct (mapM _ _) as [rest|e] eqn:Hrest; [|done].
    simpl in Hsrcs. injection Hsrcs as <-.
    rewrite (IH _ rest eq_refl). simpl. by rewrite <- app_assoc.
Qed.

(** C4.  When the source of every selected member and of [fit] and [predict]
    can be retrieved, the accumulator is the header line
    [class <Name>(torch.nn.Module):] followed by the lines of the selected
    members' sources in scan order, then those of [fit]'s source, then those
    of [predict]'s: the header is line 0 and the only line that is not a
    method's, nothing is reordered or dropped; and the returned text is the
    header, the captured sources, [fit]'s source and [predict]'s source joined
    by newlines, whatever the scan captured. *)
Theorem C4_class_source_structure obj fit predict srcs fit_src predict_src :
  mapM (λ kv, getsource kv.2)
       (List.filter (λ kv : string * member, selected (class_name obj) kv.2)
                    (getmembers obj)) = Ok srcs →
  getattr obj "fit" = Ok fit → getsource fit = Ok fit_src →
  getattr obj "predict" = Ok predict → getsource predict = Ok predict_src →
  let header := "class " +:+ class_name obj +:+ "(torch.nn.Module):" in
  class_source_lines obj
  = Ok {| source := header :: concat (map (split newline) (srcs ++ [fit_src; predict_src])) |}
  ∧ _make_class_source obj = Ok (join nl (header :: srcs ++ [fit_src; predict_src]))
  ∧ (header ∉ concat (map (split newline) (srcs ++ [fit_src; predict_src])) →
     ∀ source_maker, class_source_lines obj = Ok source_maker →
       filter (λ line, line = header) (source source_maker) = [header]).
Proof.
  intros Hscan Hfit Hfit_src Hpredict Hpredict_src header.
  assert (class_source_lines obj
          = Ok {| source := header :: concat (map (split newline)
                                             (srcs ++ [fit_src; predict_src])) |}) as Hlines.
  { unfold class_source_lines.
    rewrite (scan_members_appends _ _ _ _ Hscan). simpl.
    rewrite Hfit; simpl. rewrite Hfit_src; simpl.
    rewrite Hpredict; simpl. rewrite Hpredict_src; simpl.
    unfold add_method; simpl. fold header.
    rewrite map_app, concat_app. simpl. by rewrite app_nil_r, <- !app_assoc. }
  split; [exact Hlines|]. split.
  - unfold _make_class_source. rewrite Hlines. simpl.
    rewrite !join_cons, join_lines; [done|by destruct srcs|].
    intros Hnil. apply (f_equal length) in Hnil.
    rewrite map_app, concat_app, length_app in Hnil. simpl in Hnil.
    pose proof (split_not_nil newline fit_src) as Hne.
    destruct (split newline fit_src); [done|]. simpl in Hnil. lia.
  - intros Hbody source_maker Hsm. rewrite Hlines in Hsm. injection Hsm as <-.
    simpl. rewrite filter_cons_True by done. f_equal.
    destruct (filter _ _) as [|line rest] eqn:Hfilter; [done|].
    assert (line ∈ line :: rest) as Hin by left.
    rewrite <- Hfilter in Hin. by apply list_elem_of_filter in Hin as [-> Hin].
Qed.

Lemma C4_witness :
  class_source_lines sample_obj
  = Ok {| source :=
            "class ClassName(torch.nn.Module):"
            :: concat (map (split newline)
                 (["    def fit(self, data):" +:+ nl +:+ "        pass" +:+ nl;
                   "    def predict(self, data):" +:+ nl +:+ "        return data" +:+ nl]
                  ++ ["    def fit(self, data):" +:+ nl +:+ "        pass" +:+ nl;
                      "    def predict(self, data):" +:+ nl +:+ "        return data" +:+ nl])) |}
  ∧ _make_class_source sample_obj
    = Ok (join nl
            ("class ClassName(torch.nn.Module):"
             :: ["    def fit(self, data):" +:+ nl +:+ "        pass" +:+ nl;
                 "    def predict(self, data):" +:+ nl +:+ "        return data" +:+ nl]
             ++ ["    def fit(self, data):" +:+ nl +:+ "        pass" +:+ nl;
                 "    def predict(self, data):" +:+ nl +:+ "        return data" +:+ nl]))
  ∧ ("class ClassName(torch.nn.Module):"
       ∉ concat (map (split newline)
           (["    def fit(self, data):" +:+ nl +:+ "        pass" +:+ nl;
             "    def predict(self, data):" +:+ nl +:+ "        return data" +:+ nl]
            ++ ["    def fit(self, data):" +:+ nl +:+ "        pass" +:+ nl;
                "    def predict(self, data):" +:+ nl +:+ "        return data" +:+ nl])) →
     ∀ source_maker, class_source_lines sample_obj = Ok source_maker →
       filter (λ line, line = "class ClassName(torch.nn.Module):") (source source_maker)
       = ["class ClassName(torch.nn.Module):"]).
Proof.
  apply (C4_class_source_structure sample_obj fit_member predict_member); reflexivity.
Defined.

(** ** _make_source: the import loop *)

(** [src] is still unbound when the loop starts, and every path through the
    loop body either indexes past the end of the name list or reads [src]. *)
Lemma render_import_unbound my_import :
  render_import my_import None = Raise UnboundLocalError
  ∨ render_import my_import None = Raise IndexError.
Proof.
  unfold render_import, render_field, getitem.
  destruct (name my_import) as [|f0 [|f1 [|f2 rest]]]; simpl; auto;
    destruct (0 <? String.length f0)%nat; simpl; auto;
    destruct (0 <? String.length f1)%nat; simpl; auto;
    destruct (0 <? String.length f2)%nat; simpl; auto.
Qed.

(** The loop completes only when there is nothing to loop over. *)
Lemma import_loop_completes g src :
  for_in g render_import None = Ok src →
  pending g = [] ∧ ending g = None.
Proof.
  destruct g as [[|r rest] e].
  - destruct e as [e|]; [|done].
    by rewrite (for_in_ends_raising {| pending := []; ending := Some e |}
                  _ _ e eq_refl eq_refl).
  - destruct (render_import_unbound r) as [H|H];
      by rewrite (for_in_body_raises {| pending := r :: rest; ending := e |}
                    _ _ r rest _ eq_refl H).
Qed.

Lemma resolver_yields_nothing_inv py obj :
  resolver_yields_nothing py obj →
  pending (get_imports py (class_module obj)) = []
  ∧ ending (get_imports py (class_module obj)) = None.
Proof.
  unfold resolver_yields_nothing. rewrite traverse_spec. by intros [= -> ->].
Qed.

(** When [open] raises on what [inspect.getmodule] returned (the built-in
    raises TypeError for an object that is not a path), the first step of the
    import loop raises it and so does the composer. *)
Lemma make_source_open_raises py cs cn im pt se obj e :
  open_read py (class_module obj) = Raise e →
  _make_source py cs cn im pt se obj = Raise e.
Proof.
  intros Hopen. unfold _make_source.
  rewrite (for_in_ends_raising (get_imports py (class_module obj)) _ _ e);
    [done|unfold get_imports; by rewrite Hopen..].
Qed.

(** A script is returned only for a module without import records. *)
Lemma make_source_needs_no_imports py cs cn im pt se obj s :
  _make_source py cs cn im pt se obj = Ok s → resolver_yields_nothing py obj.
Proof.
  unfold _make_source, resolver_yields_nothing. intros Hs.
  destruct (for_in _ render_import None) as [src|e] eqn:Hloop; [|done].
  apply import_loop_completes in Hloop as [Hp He].
  by rewrite traverse_spec, Hp, He.
Qed.

(** An import statement leaves the generator with a record to yield, or
    makes its body raise at once. *)
Lemma run_nodes_of_import root node :
  node ∈ root → imports_a_name node →
  (run_nodes root).1 ≠ [] ∨ run_nodes root = ([], Some AttributeError).
Proof.
  induction root as [|node' root IH]; intros Hin Himports.
  - by apply elem_of_nil in Hin.
  - apply elem_of_cons in Hin as [<-|Hin].
    + simpl. destruct node as [[|n names]|[path|] [|n names] level|];
        simpl in *; try done; try (by right);
        destruct (run_nodes root); simpl; by left.
    + specialize (IH Hin Himports). simpl.
      destruct (node_records node') as [records|e] eqn:Hnode.
      * destruct (run_nodes root) as [later e]. simpl in *.
        destruct IH as [Hlater|[= -> ->]].
        -- left. by destruct records.
        -- rewrite app_nil_r. destruct records; [by right|by left].
      * right. destruct node' as [?|[?|] ? ?|]; by simplify_eq/=.
Qed.

(** C1 (where the code departs from it).  When the module of the object has
    a top-level import statement, the composer returns no script, whatever
    its other arguments: the first Import Record makes the body of the
    import loop read [src] before anything is assigned to it (or index past
    the end of the record's name), and a from-import without a module makes
    the resolver itself raise. *)
Theorem C1_imports_make_composer_raise py cs cn im pt se obj text root node :
  open_read py (class_module obj) = Ok text →
  ast_parse py text = Ok root →
  node ∈ root → imports_a_name node →
  _make_source py cs cn im pt se obj = Raise UnboundLocalError
  ∨ _make_source py cs cn im pt se obj = Raise IndexError
  ∨ _make_source py cs cn im pt se obj = Raise AttributeError.
Proof.
  intros Hopen Hparse Hin Himports.
  pose proof (run_nodes_of_import _ _ Hin Himports) as Hrun.
  unfold _make_source, get_imports. rewrite Hopen, Hparse.
  destruct (run_nodes root) as [[|r rest] e]; simpl in Hrun.
  - destruct Hrun as [?|[= ->]]; [done|]. right; right.
    by rewrite (for_in_ends_raising {| pending := []; ending := Some AttributeError |}
                  _ _ AttributeError eq_refl eq_refl).
  - destruct (render_import_unbound r) as [Hbody|Hbody]; [left|right; left];
      by rewrite (for_in_body_raises {| pending := r :: rest; ending := e |}
                    _ _ r rest _ eq_refl Hbody).
Qed.

Lemma C1_witness :
  _make_source module_import_abc "CLS" "ClassName" None [] [] sample_obj
  = Raise UnboundLocalError
  ∨ _make_source module_import_abc "CLS" "ClassName" None [] [] sample_obj
    = Raise IndexError
  ∨ _make_source module_import_abc "CLS" "ClassName" None [] [] sample_obj
    = Raise AttributeError.
Proof.
  apply (C1_imports_make_composer_raise module_import_abc "CLS" "ClassName"
           None [] [] sample_obj "import a.b.c"
           [ast.Import [plain_name "a.b.c"]] (ast.Import [plain_name "a.b.c"])).
  - reflexivity.
  - reflexivity.
  - left.
  - exact I.
Defined.

(** Had [src] been bound, the body would index the segments of the imported
    name as if they were the record's three fields, and loop over the
    characters of each: the record of [import a.b.c] would be rendered as
    [from a import b as c]. *)
Example render_import_with_src_bound :
  render_import {| module := []; name := ["a"; "b"; "c"]; alias := None |}
                (Some EmptyString)
  = Ok (Some ("from a import b as c" +:+ nl)).
Proof. reflexivity. Qed.

(** For [import a.b.c] the exception is the read of the unbound [src]. *)
Example make_source_import_abc cs cn im pt se obj :
  _make_source module_import_abc cs cn im pt se obj = Raise UnboundLocalError.
Proof. reflexivity. Qed.

(** ** _make_source: the call statement *)

Lemma cat_app l1 l2 : cat (l1 ++ l2) = cat l1 +:+ cat l2.
Proof.
  induction l1 as [|s l1 IH]; [reflexivity|].
  simpl. unfold cat in *. simpl. by rewrite IH, str_app_assoc.
Qed.

Lemma render_pass_through_argument src item :
  render_pass_through src item = src +:+ pass_through_argument item.
Proof. by destruct item as [parameter_name [z|text|[]| |text]]. Qed.

Lemma pass_through_loop pt : ∀ src,
  foldl render_pass_through src pt = src +:+ cat (map pass_through_argument pt).
Proof.
  induction pt as [|item pt IH]; intros src; simpl.
  - by rewrite str_app_nil_r.
  - rewrite IH, render_pass_through_argument. unfold cat; simpl.
    by rewrite str_app_assoc.
Qed.

Lemma serialized_loop_registered obj se ds :
  Forall2 (λ item d, _data_serialization_mapping obj !! item.2.2 = Some d) se ds →
  ∀ src, for_items (render_serialized obj) se src
         = Ok (src +:+ cat (zip_with serialized_argument se ds)).
Proof.
  induction 1 as [|[parameter_name [uri ty]] d se ds Hd _ IH]; intros src; simpl.
  - by rewrite str_app_nil_r.
  - unfold lookup_deserializer. simpl in Hd. rewrite Hd. simpl.
    rewrite IH. unfold cat, serialized_argument; simpl.
    by rewrite !str_app_assoc.
Qed.

Lemma serialized_loop_unregistered obj se :
  Exists (unregistered obj) se →
  ∀ src, for_items (render_serialized obj) se src = Raise KeyError.
Proof.
  induction se as [|[parameter_name [uri ty]] se IH]; intros Hex src.
  - by apply Exists_nil in Hex.
  - simpl. unfold lookup_deserializer.
    destruct (_data_serialization_mapping obj !! ty) as [d|] eqn:Hd; [|done].
    simpl. apply IH. apply Exists_cons in Hex as [Hhere|Hlater]; [|done].
    unfold unregistered in Hhere. simpl in Hhere. congruence.
Qed.

Lemma registered_or_not obj se :
  Exists (unregistered obj) se
  ∨ ∃ ds, Forall2 (λ item d, _data_serialization_mapping obj !! item.2.2 = Some d) se ds.
Proof.
  induction se as [|item se [IH|[ds IH]]].
  - right. by exists [].
  - left. by apply Exists_cons_tl.
  - destruct (_data_serialization_mapping obj !! item.2.2) as [d|] eqn:Hd.
    + right. exists (d :: ds). by constructor.
    + left. by apply Exists_cons_hd.
Qed.

(** C6 (as stated, refuted).  Without a method name the composer returns a
    script although the runtime type of a descriptor has no entry in the
    table. *)
Lemma C6_counterexample :
  ¬ ((∃ e, _make_source module_without_imports "CLS" "ClassName" None
             sample_pass_through unregistered_serialized sample_obj = Raise e
           ∧ is_LookupError e = true)
     ↔ Exists (unregistered sample_obj) unregistered_serialized).
Proof.
  intros [_ Hfails].
  destruct Hfails as (e & Hraise & _); [|by vm_compute in Hraise].
  apply Exists_cons_hd. reflexivity.
Qed.

(** *** With the import loop and the binding behind it

    The statements of this section are about a run in which the import loop
    completes and the constructor arguments bind to [bound]. *)

Section after_imports.
Context (py : interp) (obj : instance) (bound : list value).
Hypothesis Himports : resolver_yields_nothing py obj.
Hypothesis Hbind :
  init_bind_args obj (_constructor_arguments obj).1 (_constructor_arguments obj).2
  = Ok bound.

(** What [_make_source] computes from there. *)
Lemma make_source_after_imports cs cn im pt se :
  _make_source py cs cn im pt se obj
  = match im with
    | Some method =>
        match for_items (render_serialized obj) se
                (script_head cs cn bound +:+ "my_model." +:+ method +:+ "(") with
        | Ok src => Ok ((foldl render_pass_through src pt +:+ ")" +:+ nl)
                        +:+ persist_statement)
        | Raise e => Raise e
        end
    | None => Ok (script_head cs cn bound +:+ persist_statement)
    end.
Proof.
  destruct (resolver_yields_nothing_inv _ _ Himports) as [Hp He].
  unfold _make_source. rewrite (for_in_empty _ _ _ Hp He). simpl.
  rewrite Hbind. simpl. unfold script_head.
  destruct im as [method|]; simpl.
  - rewrite !str_app_assoc. by destruct (for_items _ _ _).
  - by rewrite !str_app_assoc.
Qed.

(** C2.  When the import loop completes, the constructor arguments bind and
    every descriptor's runtime type has an entry in the table, the script for
    a given method name is: the head (prologue, class source, instantiation),
    then [my_model.<method>(], then for each descriptor in order
    [<name>=<deserializer-name>('<storage location>'), ], then for each
    pass-through parameter in order [<name>='<value>', ] for a string and
    [<name>=<value>, ] otherwise, then [)], a newline and the persistence
    statement.  Without a method name the head is followed directly by the
    persistence statement: there is no call statement. *)
Theorem C2_call_statement cs cn method pt se ds :
  Forall2 (λ item d, _data_serialization_mapping obj !! item.2.2 = Some d) se ds →
  _make_source py cs cn (Some method) pt se obj
  = Ok (script_head cs cn bound
        +:+ "my_model." +:+ method +:+ "("
        +:+ cat (zip_with serialized_argument se ds)
        +:+ cat (map pass_through_argument pt)
        +:+ ")" +:+ nl +:+ persist_statement)
  ∧ _make_source py cs cn None pt se obj
    = Ok (script_head cs cn bound +:+ persist_statement).
Proof.
  intros Hds. rewrite !make_source_after_imports.
  split; [|done].
  rewrite (serialized_loop_registered _ _ _ Hds), pass_through_loop.
  by rewrite !str_app_assoc.
Qed.

(** C6 (amended).  With a method name, once the import loop has completed and
    the constructor arguments are bound, script generation fails with a
    LookupError exactly when the runtime type of some descriptor has no entry
    in the table; the error is then a KeyError and is the whole result, no
    script is returned.  Without a method name the table is not consulted and
    a script is returned. *)
Theorem C6_lookup_error cs cn method pt se :
  ((∃ e, _make_source py cs cn (Some method) pt se obj = Raise e
         ∧ is_LookupError e = true)
   ↔ Exists (unregistered obj) se)
  ∧ (Exists (unregistered obj) se →
     _make_source py cs cn (Some method) pt se obj = Raise KeyError)
  ∧ (¬ Exists (unregistered obj) se →
     ∃ s, _make_source py cs cn (Some method) pt se obj = Ok s)
  ∧ ∃ s, _make_source py cs cn None pt se obj = Ok s.
Proof.
  rewrite !make_source_after_imports.
  assert (Exists (unregistered obj) se →
          match for_items (render_serialized obj) se
                  (script_head cs cn bound +:+ "my_model." +:+ method +:+ "(") with
          | Ok src => Ok ((foldl render_pass_through src pt +:+ ")" +:+ nl)
                          +:+ persist_statement)
          | Raise e => Raise e
          end = Raise KeyError) as Hmissing.
  { intros Hex. by rewrite (serialized_loop_unregistered _ _ Hex). }
  repeat split.
  - intros (e & Hraise & _).
    destruct (registered_or_not obj se) as [Hex|[ds Hds]]; [done|].
    by rewrite (serialized_loop_registered _ _ _ Hds) in Hraise.
  - intros Hex. exists KeyError. by rewrite Hmissing.
  - exact Hmissing.
  - intros Hall. destruct (registered_or_not obj se) as [Hex|[ds Hds]]; [done|].
    rewrite (serialized_loop_registered _ _ _ Hds). by eexists.
  - by eexists.
Qed.

End after_imports.

Lemma C2_witness :
  _make_source module_without_imports "CLS" "ClassName" (Some "fit")
    sample_pass_through sample_serialized sample_obj
  = Ok (script_head "CLS" "ClassName" [VObj "ClassName()"; VInt 5; VStr "x"]
        +:+ "my_model." +:+ "fit" +:+ "("
        +:+ cat ["table=load_table('gs://bucket/t.parquet'), "]
        +:+ cat ["epochs=5, "; "name='run1', "]
        +:+ ")" +:+ nl +:+ persist_statement)
  ∧ _make_source module_without_imports "CLS" "ClassName" None
      sample_pass_through sample_serialized sample_obj
    = Ok (script_head "CLS" "ClassName" [VObj "ClassName()"; VInt 5; VStr "x"]
          +:+ persist_statement).
Proof.
  apply (C2_call_statement module_without_imports sample_obj
           [VObj "ClassName()"; VInt 5; VStr "x"] eq_refl eq_refl
           "CLS" "ClassName" "fit" sample_pass_through sample_serialized
           [{| deserializer_name := "load_table" |}]).
  repeat constructor.
Defined.

(** C3 (where the code departs from it).  For constructor arguments
    [(5, "x")] the instantiation statement is [my_model = ClassName(5,x)]:
    the string is rendered without quotes, as a name, where the call
    statement renders a string parameter between quotes.  The same script is
    composed for an object constructed with [("5", "x")], so the script
    cannot bind the argument values of both as they were. *)
Theorem C3_string_argument_rendered_bare cs im pt se :
  _make_source module_without_imports cs "ClassName" None pt se
    (constructed_with [VInt 5; VStr "x"])
  = Ok (join nl (prologue ++ [cs])
        +:+ "my_model = ClassName(5,x)" +:+ nl +:+ persist_statement)
  ∧ _make_source module_without_imports cs "ClassName" im pt se
      (constructed_with [VStr "5"; VStr "x"])
    = _make_source module_without_imports cs "ClassName" im pt se
        (constructed_with [VInt 5; VStr "x"])
  ∧ render_pass_through EmptyString ("tag", VStr "x") = "tag='x', ".
Proof.
  split; [|split; [|reflexivity]].
  - rewrite (make_source_after_imports module_without_imports
               (constructed_with [VInt 5; VStr "x"])
               [VObj "ClassName()"; VInt 5; VStr "x"] eq_refl eq_refl).
    unfold script_head. rewrite str_app_assoc. reflexivity.
  - rewrite (make_source_after_imports module_without_imports
               (constructed_with [VInt 5; VStr "x"])
               [VObj "ClassName()"; VInt 5; VStr "x"] eq_refl eq_refl).
    rewrite (make_source_after_imports module_without_imports
               (constructed_with [VStr "5"; VStr "x"])
               [VObj "ClassName()"; VStr "5"; VStr "x"] eq_refl eq_refl).
    reflexivity.
Qed.

Lemma C6_witness :
  ((∃ e, _make_source module_without_imports "CLS" "ClassName" (Some "fit")
           sample_pass_through unregistered_serialized sample_obj = Raise e
         ∧ is_LookupError e = true)
   ↔ Exists (unregistered sample_obj) unregistered_serialized)
  ∧ (Exists (unregistered sample_obj) unregistered_serialized →
     _make_source module_without_imports "CLS" "ClassName" (Some "fit")
       sample_pass_through unregistered_serialized sample_obj = Raise KeyError)
  ∧ (¬ Exists (unregistered sample_obj) unregistered_serialized →
     ∃ s, _make_source module_without_imports "CLS" "ClassName" (Some "fit")
            sample_pass_through unregistered_serialized sample_obj = Ok s)
  ∧ ∃ s, _make_source module_without_imports "CLS" "ClassName" None
           sample_pass_through unregistered_serialized sample_obj = Ok s.
Proof.
  apply (C6_lookup_error module_without_imports sample_obj
           [VObj "ClassName()"; VInt 5; VStr "x"] eq_refl eq_refl
           "CLS" "ClassName" "fit" sample_pass_through unregistered_serialized).
Defined.

(** C7.  Whatever the inputs, with or without a method name, a script the
    composer returns ends with the persistence statement
    [model._serialize_local_model(os.getenv('AIP_MODEL_DIR'), my_model, my_model.training_mode)]:
    the call of [os.getenv] is text of the script, and nothing, no newline
    either, follows the closing parenthesis. *)
Theorem C7_ends_with_persist_statement py cs cn im pt se obj s :
  _make_source py cs cn im pt se obj = Ok s →
  ∃ body,
    s = body +:+ "model._serialize_local_model(os.getenv('AIP_MODEL_DIR'), my_model, my_model.training_mode)".
Proof.
  unfold _make_source. intros Hs.
  destruct (for_in _ render_import None) as [src0|e]; [|done]. simpl in Hs.
  destruct (init_bind_args obj _ _) as [bound|e]; [|done]. simpl in Hs.
  match type of Hs with mbind _ ?m = _ => destruct m as [src|e]; [|done] end.
  simpl in Hs. injection Hs as <-. by exists src.
Qed.

Lemma C7_witness :
  ∃ body,
    (script_head "CLS" "ClassName" [VObj "ClassName()"; VInt 5; VStr "x"]
     +:+ persist_statement)
    = body +:+ "model._serialize_local_model(os.getenv('AIP_MODEL_DIR'), my_model, my_model.training_mode)".
Proof.
  apply (C7_ends_with_persist_statement module_without_imports "CLS" "ClassName"
           None sample_pass_through sample_serialized sample_obj).
  reflexivity.
Defined.

Lemma make_source_ok_inv py cs cn im pt se obj s :
  _make_source py cs cn im pt se obj = Ok s →
  resolver_yields_nothing py obj
  ∧ ∃ bound,
      init_bind_args obj (_constructor_arguments obj).1 (_constructor_arguments obj).2
      = Ok bound.
Proof.
  intros Hs. split; [by eapply make_source_needs_no_imports|].
  unfold _make_source in Hs.
  destruct (for_in _ render_import None) as [src0|e]; [|done]. simpl in Hs.
  destruct (init_bind_args obj _ _) as [bound|e]; [|done]. by exists bound.
Qed.

(** C10.  The fragment the composer renders for a pass-through parameter
    whose value is a string is the name, [='], the characters of the value
    as they are, and [', ]; and that fragment is part of every script
    composed, with a method name, from parameters that include it.  The
    value is any string: quotes, backslashes and newlines in it are not
    escaped. *)
Theorem C10_string_value_verbatim py cs cn method pt se obj s parameter_name text :
  _make_source py cs cn (Some method) pt se obj = Ok s →
  (parameter_name, VStr text) ∈ pt →
  (∀ src, render_pass_through src (parameter_name, VStr text)
          = src +:+ parameter_name +:+ "='" +:+ text +:+ "', ")
  ∧ ∃ before after,
      s = before +:+ (parameter_name +:+ "='" +:+ text +:+ "', ") +:+ after.
Proof.
  intros Hs Hin. split; [reflexivity|].
  destruct (make_source_ok_inv _ _ _ _ _ _ _ _ Hs) as (Himports & bound & Hbind).
  rewrite (make_source_after_imports _ _ _ Himports Hbind) in Hs.
  destruct (for_items _ _ _) as [src|e]; [|done]. injection Hs as <-.
  apply list_elem_of_split in Hin as (pt1 & pt2 & ->).
  rewrite pass_through_loop, map_app, cat_app. simpl map.
  exists (src +:+ cat (map pass_through_argument pt1)),
         (cat (map pass_through_argument pt2) +:+ ")" +:+ nl +:+ persist_statement).
  change (cat (pass_through_argument (parameter_name, VStr text)
               :: map pass_through_argument pt2))
    with ((parameter_name +:+ "='" +:+ text +:+ "', ")
          +:+ cat (map pass_through_argument pt2)).
  by rewrite !str_app_assoc.
Qed.

Lemma C10_witness :
  (∀ src, render_pass_through src ("name", VStr "it's")
          = src +:+ "name" +:+ "='" +:+ "it's" +:+ "', ")
  ∧ ∃ before after,
      (script_head "CLS" "ClassName" [VObj "ClassName()"; VInt 5; VStr "x"]
       +:+ "my_model.fit(" +:+ "name='it's', " +:+ ")" +:+ nl +:+ persist_statement)
      = before +:+ ("name" +:+ "='" +:+ "it's" +:+ "', ") +:+ after.
Proof.
  apply (C10_string_value_verbatim module_without_imports "CLS" "ClassName" "fit"
           [("name", VStr "it's")] [] sample_obj).
  - reflexivity.
  - left.
Defined.

(** * Further properties *)

(** ** get_imports, further *)

(** An instance of [get_imports_records]: [import os.path], an assignment,
    [from a.b import c as d, e], an assignment. *)
Lemma get_imports_records_witness :
  traverse (get_imports sample_project (PathStr "mixed.py"))
  = (concat (map records_of_statement root_mixed), None, exhausted).
Proof.
  apply (get_imports_records sample_project (PathStr "mixed.py")
           "import os.path; x = 1; from a.b import c as d, e; y = 2" root_mixed).
  - reflexivity.
  - reflexivity.
  - repeat constructor.
Defined.

Lemma run_nodes_skips_other root :
  run_nodes (List.filter is_import root) = run_nodes root.
Proof.
  induction root as [|node root IH]; [reflexivity|].
  destruct node as [names|m names level|]; simpl.
  - by rewrite IH.
  - destruct m; [by rewrite IH|done].
  - rewrite IH. by destruct (run_nodes root).
Qed.

(** Statements that are not imports have no effect on what the resolver
    does: with or without them it yields the same records and ends the same
    way. *)
Theorem get_imports_ignores_other_statements py path path' text text' root :
  open_read py path = Ok text → ast_parse py text = Ok root →
  open_read py path' = Ok text' →
  ast_parse py text' = Ok (List.filter is_import root) →
  get_imports py path' = get_imports py path.
Proof.
  intros Hopen Hparse Hopen' Hparse'. unfold get_imports.
  by rewrite Hopen, Hparse, Hopen', Hparse', run_nodes_skips_other.
Qed.

Lemma get_imports_ignores_other_statements_witness :
  get_imports sample_project (PathStr "imports.py")
  = get_imports sample_project (PathStr "mixed.py").
Proof.
  apply (get_imports_ignores_other_statements sample_project
           (PathStr "mixed.py") (PathStr "imports.py")
           "import os.path; x = 1; from a.b import c as d, e; y = 2"
           "import os.path; from a.b import c as d, e" root_mixed);
    reflexivity.
Defined.

Lemma length_records_of_statement node :
  length (records_of_statement node) = length (names_of node) ∨ ¬ names_its_module node.
Proof.
  destruct node as [names|[path|] names level|]; simpl;
    rewrite ?length_map; auto.
Qed.

(** On a module whose from-imports all name their module, the resolver
    yields as many records as the import statements import names. *)
Theorem get_imports_one_record_per_name py path text root :
  open_read py path = Ok text → ast_parse py text = Ok root →
  Forall names_its_module root →
  length (first_traversal (get_imports py path))
  = length (concat (map names_of root)).
Proof.
  intros Hopen Hparse Hroot. unfold first_traversal. rewrite traverse_spec.
  unfold get_imports. rewrite Hopen, Hparse, (run_nodes_absolute _ Hroot). simpl.
  clear Hparse. induction Hroot as [|node root Hnode _ IH]; [reflexivity|].
  simpl. rewrite !length_app, IH.
  destruct (length_records_of_statement node) as [->|Hnot]; [reflexivity|].
  by destruct Hnot.
Qed.

Lemma get_imports_one_record_per_name_witness :
  length (first_traversal (get_imports sample_project (PathStr "mixed.py")))
  = length (concat (map names_of root_mixed)).
Proof.
  apply (get_imports_one_record_per_name sample_project (PathStr "mixed.py")
           "import os.path; x = 1; from a.b import c as d, e; y = 2" root_mixed).
  - reflexivity.
  - reflexivity.
  - repeat constructor.
Defined.

Lemma records_of_statement_names node :
  names_its_module node →
  map (λ r, (join "." (name r), alias r)) (records_of_statement node)
  = map (λ n, (ast.name n, ast.asname n)) (names_of node).
Proof.
  destruct node as [names|[path|] names level|]; simpl; try done; intros _;
    rewrite map_map; apply map_ext; intros n; simpl;
    by rewrite (join_split dot).
Qed.

(** The dotted name and the alias of every import survive the resolver: on a
    module whose from-imports all name their module, joining the segments of
    each record's name with dots gives the imported names as written, in
    source order, each with its alias; and no record has an empty name. *)
Theorem get_imports_names_round_trip py path text root :
  open_read py path = Ok text → ast_parse py text = Ok root →
  Forall names_its_module root →
  map (λ r, (join "." (name r), alias r)) (first_traversal (get_imports py path))
  = map (λ n, (ast.name n, ast.asname n)) (concat (map names_of root))
  ∧ Forall (λ r, name r ≠ []) (first_traversal (get_imports py path)).
Proof.
  intros Hopen Hparse Hroot. unfold first_traversal. rewrite traverse_spec.
  unfold get_imports. rewrite Hopen, Hparse, (run_nodes_absolute _ Hroot). simpl.
  split.
  - clear Hparse. induction Hroot as [|node root Hnode _ IH]; [reflexivity|].
    simpl. rewrite !map_app, IH.
    by rewrite (records_of_statement_names _ Hnode).
  - clear. induction root as [|node root IH]; simpl; [constructor|].
    apply Forall_app. split; [|exact IH].
    destruct node as [names|[path|] names level|]; simpl;
      try constructor; apply Forall_map, Forall_forall; intros n _; simpl;
      apply split_not_nil.
Qed.

Lemma get_imports_names_round_trip_witness :
  map (λ r, (join "." (name r), alias r))
      (first_traversal (get_imports sample_project (PathStr "mixed.py")))
  = map (λ n, (ast.name n, ast.asname n)) (concat (map names_of root_mixed))
  ∧ Forall (λ r, name r ≠ [])
      (first_traversal (get_imports sample_project (PathStr "mixed.py"))).
Proof.
  apply (get_imports_names_round_trip sample_project (PathStr "mixed.py")
           "import os.path; x = 1; from a.b import c as d, e; y = 2" root_mixed).
  - reflexivity.
  - reflexivity.
  - repeat constructor.
Defined.

Lemma run_nodes_drop_level root :
  run_nodes (map drop_level root) = run_nodes root.
Proof.
  induction root as [|node root IH]; [reflexivity|].
  destruct node as [names|m names level|]; simpl; by rewrite IH.
Qed.

(** The resolver never reads the level of a from-import: a module and the
    same module with the leading dots of its from-imports removed give the
    same records. *)
Theorem get_imports_ignores_level py path path' text text' root :
  open_read py path = Ok text → ast_parse py text = Ok root →
  open_read py path' = Ok text' →
  ast_parse py text' = Ok (map drop_level root) →
  get_imports py path' = get_imports py path.
Proof.
  intros Hopen Hparse Hopen' Hparse'. unfold get_imports.
  by rewrite Hopen, Hparse, Hopen', Hparse', run_nodes_drop_level.
Qed.

Lemma get_imports_ignores_level_witness :
  get_imports sample_project (PathStr "absolute.py")
  = get_imports sample_project (PathStr "relative.py").
Proof.
  apply (get_imports_ignores_level sample_project
           (PathStr "relative.py") (PathStr "absolute.py")
           "from ..pkg import x" "from pkg import x"
           [ast.ImportFrom (Some "pkg") [plain_name "x"] 2]);
    reflexivity.
Defined.

(** ** Strings, further *)

Section more_strings.
Implicit Types (s t p : string) (c sep : ascii) (l : list string).

Lemma contains_app c s t : contains c (s +:+ t) = contains c s || contains c t.
Proof.
  induction s as [|c' s IH]; [reflexivity|].
  rewrite str_app_cons. simpl. by rewrite IH, orb_assoc.
Qed.

(** No piece of a split contains the separator. *)
Lemma split_pieces_free sep s :
  Forall (λ piece, contains sep piece = false) (split sep s).
Proof.
  induction s as [|c s IH]; simpl; [by repeat constructor|].
  destruct (Ascii.eqb c sep) eqn:Hc; [by constructor|].
  destruct (split sep s) as [|piece pieces]; simpl.
  - repeat constructor. simpl. by rewrite Hc.
  - inversion IH as [|? ? Hpiece Hpieces]; subst.
    constructor; [|done]. simpl. by rewrite Hc.
Qed.

Lemma split_app_sep sep s t :
  contains sep s = false →
  split sep (s +:+ String sep t) = s :: split sep t.
Proof.
  induction s as [|c s IH]; intros Hfree.
  - simpl. change (EmptyString +:+ String sep t) with (String sep t).
    simpl. by rewrite Ascii.eqb_refl.
  - simpl in Hfree. apply orb_false_iff in Hfree as [Hc Hs].
    rewrite str_app_cons. simpl. rewrite Hc, (IH Hs). done.
Qed.

Lemma split_free sep s : contains sep s = false → split sep s = [s].
Proof.
  induction s as [|c s IH]; intros Hfree; [reflexivity|].
  simpl in Hfree. apply orb_false_iff in Hfree as [Hc Hs].
  simpl. by rewrite Hc, (IH Hs).
Qed.

(** [sep.join(l).split(sep) == l] for a non-empty list of pieces without
    the separator. *)
Lemma split_join sep l :
  l ≠ [] → Forall (λ piece, contains sep piece = false) l →
  split sep (join (String sep EmptyString) l) = l.
Proof.
  induction l as [|s l IH]; intros Hne Hfree; [done|].
  inversion Hfree as [|? ? Hs Hl]; subst.
  destruct l as [|s' l].
  - by apply split_free.
  - rewrite join_cons by done.
    change (String sep EmptyString +:+ join (String sep EmptyString) (s' :: l))
      with (String sep (join (String sep EmptyString) (s' :: l))).
    rewrite (split_app_sep _ _ _ Hs). f_equal. by apply IH.
Qed.

Lemma join_header_lines header l :
  join nl (header :: concat (map (split newline) l)) = join nl (header :: l).
Proof.
  destruct l as [|s l]; [reflexivity|].
  rewrite (join_cons nl header (s :: l)) by done.
  rewrite join_cons, join_lines; [done|].
  simpl. intros Hnil. apply app_eq_nil in Hnil as [Hnil _].
  by apply split_not_nil in Hnil.
Qed.

Lemma prefix_app p s : String.prefix p (p +:+ s) = true.
Proof.
  induction p as [|c p IH]; [by destruct s|].
  rewrite str_app_cons. simpl. by destruct (ascii_dec c c).
Qed.

Lemma prefix_inv p s : String.prefix p s = true → ∃ t, s = p +:+ t.
Proof.
  revert s. induction p as [|c p IH]; intros s Hprefix; [by exists s|].
  destruct s as [|c' s]; [done|]. simpl in Hprefix.
  destruct (ascii_dec c c') as [<-|]; [|done].
  destruct (IH _ Hprefix) as [t ->]. by exists t.
Qed.

(** The characters of a text, put one after the other, are the text. *)
Lemma cat_chars s : foldr String.append EmptyString (chars s) = s.
Proof.
  induction s as [|c s IH]; [reflexivity|]. simpl.
  destruct (chars s) as [|next later]; simpl in *; [by rewrite <- IH|].
  destruct (starts_inside_character s); simpl; by rewrite <- IH.
Qed.

Lemma chars_not_nil c s : chars (String c s) ≠ [].
Proof.
  simpl. destruct (chars s); [done|]. by destruct (starts_inside_character s).
Qed.

(** The characters of two texts put together, when the second begins at a
    character boundary. *)
Lemma chars_app s t :
  starts_inside_character t = false → chars (s +:+ t) = chars s ++ chars t.
Proof.
  intros Ht. induction s as [|c s IH]; [reflexivity|].
  rewrite str_app_cons. simpl. rewrite IH.
  destruct s as [|c' s].
  - change (EmptyString +:+ t) with t. rewrite Ht. simpl.
    by destruct (chars t).
  - pose proof (chars_not_nil c' s) as Hne.
    rewrite str_app_cons.
    change (starts_inside_character (String c' (s +:+ t)))
      with (starts_inside_character (String c' s)).
    destruct (chars (String c' s)) as [|next later]; [done|]. simpl.
    by destruct (is_continuation c').
Qed.

(** [(head + tail)[len(head):] == tail] *)
Lemma slice_from_app head tail :
  starts_inside_character tail = false →
  slice_from (length (chars head)) (head +:+ tail) = tail.
Proof.
  intros Htail. unfold slice_from.
  by rewrite (chars_app _ _ Htail), drop_app_length, cat_chars.
Qed.

(** [s[n:] == ""] when [len(s) <= n] *)
Lemma slice_from_short n s : length (chars s) ≤ n → slice_from n s = EmptyString.
Proof. intros Hlen. unfold slice_from. by rewrite drop_ge. Qed.

End more_strings.

(** ** SourceMaker, further *)

(** What [add_method] adds: at least one line, none with a newline in it,
    and together, joined by newlines, the text it was given; the lines held
    before stay where they were. *)
Theorem add_method_appends_lines self method_str :
  ∃ lines,
    source (add_method self method_str) = source self ++ lines
    ∧ lines ≠ []
    ∧ Forall (λ line, contains newline line = false) lines
    ∧ join nl lines = method_str.
Proof.
  exists (split newline method_str). repeat split.
  - apply split_not_nil.
  - apply split_pieces_free.
  - apply join_split_lines.
Qed.

Lemma source_foldl_add_method texts : ∀ source_maker,
  source (foldl add_method source_maker texts)
  = source source_maker ++ concat (map (split newline) texts).
Proof.
  induction texts as [|text texts IH]; intros source_maker; simpl.
  - by rewrite app_nil_r.
  - rewrite IH. simpl. by rewrite <- app_assoc.
Qed.

(** A SourceMaker to which methods were added, joined by newlines, is the
    header line and the texts of the methods in the order added, each as it
    was given, separated by newlines. *)
Theorem add_methods_joined cls_name texts :
  join nl (source (foldl add_method (SourceMaker_init cls_name) texts))
  = join nl (("class " +:+ cls_name +:+ "(torch.nn.Module):") :: texts).
Proof. rewrite source_foldl_add_method. simpl. apply join_header_lines. Qed.

(** ** _make_class_source, further *)

Section class_source.
Context (obj : instance).
Let header := "class " +:+ class_name obj +:+ "(torch.nn.Module):".
Let selected_members :=
  List.filter (λ kv : string * member, selected (class_name obj) kv.2) (getmembers obj).

Lemma scan_members_app cls_name before after source_maker :
  scan_members cls_name (before ++ after) source_maker
  = source_maker' ← scan_members cls_name before source_maker;
    scan_members cls_name after source_maker'.
Proof.
  revert source_maker.
  induction before as [|[key value] before IH]; intros source_maker; [done|].
  simpl. destruct (selected cls_name value); [|apply IH].
  destruct (getsource value) as [text|e]; simpl; [apply IH|done].
Qed.

Lemma scan_members_inv cls_name members : ∀ source_maker source_maker',
  scan_members cls_name members source_maker = Ok source_maker' →
  ∃ srcs,
    mapM (λ kv, getsource kv.2)
         (List.filter (λ kv : string * member, selected cls_name kv.2) members)
    = Ok srcs.
Proof.
  induction members as [|[key value] members IH]; intros sm sm' Hscan.
  - by exists [].
  - simpl in *. destruct (selected cls_name value); [|by eapply IH].
    simpl. destruct (getsource value) as [text|e]; [|done]. simpl in *.
    destruct (IH _ _ Hscan) as [srcs ->]. by eexists.
Qed.

(** The accumulator and the text for retrievable sources. *)
Lemma class_source_text fit predict srcs fit_src predict_src :
  mapM (λ kv, getsource kv.2) selected_members = Ok srcs →
  getattr obj "fit" = Ok fit → getsource fit = Ok fit_src →
  getattr obj "predict" = Ok predict → getsource predict = Ok predict_src →
  class_source_lines obj
  = Ok {| source := header :: concat (map (split newline)
                                       (srcs ++ [fit_src; predict_src])) |}
  ∧ _make_class_source obj = Ok (join nl (header :: srcs ++ [fit_src; predict_src])).
Proof.
  intros Hscan Hfit Hfit_src Hpredict Hpredict_src.
  assert (class_source_lines obj
          = Ok {| source := header :: concat (map (split newline)
                                             (srcs ++ [fit_src; predict_src])) |}) as Hlines.
  { unfold class_source_lines.
    rewrite (scan_members_appends _ _ _ _ Hscan). simpl.
    rewrite Hfit; simpl. rewrite Hfit_src; simpl.
    rewrite Hpredict; simpl. rewrite Hpredict_src; simpl.
    unfold add_method; simpl. fold header.
    rewrite map_app, concat_app. simpl. by rewrite app_nil_r, <- !app_assoc. }
  split; [exact Hlines|].
  unfold _make_class_source. rewrite Hlines. simpl.
  by rewrite join_header_lines.
Qed.

(** A text is returned only when the sources were there: those of the
    selected members, of [fit] and of [predict]; and it is then the header,
    these sources in that order, joined by newlines. *)
Theorem make_class_source_ok_inv text :
  _make_class_source obj = Ok text →
  ∃ srcs fit predict fit_src predict_src,
    mapM (λ kv, getsource kv.2) selected_members = Ok srcs
    ∧ getattr obj "fit" = Ok fit ∧ getsource fit = Ok fit_src
    ∧ getattr obj "predict" = Ok predict ∧ getsource predict = Ok predict_src
    ∧ text = join nl (header :: srcs ++ [fit_src; predict_src]).
Proof.
  intros Htext.
  assert (∃ source_maker, class_source_lines obj = Ok source_maker) as [sm Hlines].
  { unfold _make_class_source in Htext.
    destruct (class_source_lines obj) as [sm|e]; [by exists sm|done]. }
  unfold class_source_lines in Hlines.
  destruct (scan_members _ _ _) as [sm0|e] eqn:Hscan; [|done].
  destruct (scan_members_inv _ _ _ _ Hscan) as [srcs Hsrcs].
  simpl in Hlines.
  destruct (getattr obj "fit") as [fit|e] eqn:Hfit; [|done]. simpl in Hlines.
  destruct (getsource fit) as [fit_src|e] eqn:Hfit_src; [|done]. simpl in Hlines.
  destruct (getattr obj "predict") as [predict|e] eqn:Hpredict; [|done].
  simpl in Hlines.
  destruct (getsource predict) as [predict_src|e] eqn:Hpredict_src; [|done].
  exists srcs, fit, predict, fit_src, predict_src. repeat split; try done.
  destruct (class_source_text fit predict srcs fit_src predict_src)
    as [_ Htext']; try done.
  rewrite Htext' in Htext. by injection Htext as <-.
Qed.

(** The first selected member whose source cannot be retrieved stops the
    assembler with the error of that retrieval, whatever follows it and
    whatever [fit] and [predict] are. *)
Theorem make_class_source_unretrievable before key value after srcs e :
  getmembers obj = before ++ (key, value) :: after →
  mapM (λ kv, getsource kv.2)
       (List.filter (λ kv : string * member, selected (class_name obj) kv.2) before)
  = Ok srcs →
  selected (class_name obj) value = true →
  getsource value = Raise e →
  _make_class_source obj = Raise e.
Proof.
  intros Hmembers Hbefore Hselected Hsource.
  unfold _make_class_source, class_source_lines.
  rewrite Hmembers, scan_members_app, (scan_members_appends _ _ _ _ Hbefore).
  simpl. by rewrite Hselected, Hsource.
Qed.

Lemma getattr_missing attr :
  Forall (λ kv : string * member, kv.1 ≠ attr) (getmembers obj) →
  getattr obj attr = Raise AttributeError.
Proof.
  intros Hmissing. unfold getattr.
  destruct (list_find _ _) as [[i kv]|] eqn:Hfind; [|done].
  apply list_find_Some in Hfind as (Hi & Hkv & _).
  apply list_elem_of_lookup_2 in Hi.
  by eapply Forall_forall in Hmissing.
Qed.

(** When the scan goes through and the instance has no [fit], or has a
    [fit] with a source but no [predict], the assembler raises
    AttributeError. *)
Theorem make_class_source_missing_entry_point srcs :
  mapM (λ kv, getsource kv.2) selected_members = Ok srcs →
  Forall (λ kv : string * member, kv.1 ≠ "fit") (getmembers obj)
  ∨ ((∃ fit fit_src, getattr obj "fit" = Ok fit ∧ getsource fit = Ok fit_src)
     ∧ Forall (λ kv : string * member, kv.1 ≠ "predict") (getmembers obj)) →
  _make_class_source obj = Raise AttributeError.
Proof.
  intros Hscan Hmissing.
  unfold _make_class_source, class_source_lines.
  rewrite (scan_members_appends _ _ _ _ Hscan). simpl.
  destruct Hmissing as [Hfit|[(fit & fit_src & Hfit & Hfit_src) Hpredict]].
  - by rewrite (getattr_missing _ Hfit).
  - rewrite Hfit; simpl. rewrite Hfit_src; simpl.
    by rewrite (getattr_missing _ Hpredict).
Qed.

Lemma getattr_member attr value :
  getattr obj attr = Ok value → (attr, value) ∈ getmembers obj.
Proof.
  unfold getattr.
  destruct (list_find _ _) as [[i [key value']]|] eqn:Hfind; [|done].
  intros [= <-]. apply list_find_Some in Hfind as (Hi & Hkey & _).
  simpl in Hkey. subst key. by eapply list_elem_of_lookup_2.
Qed.

Lemma mapM_elem_of {A B} (f : A → result B) l ys x y :
  mapM f l = Ok ys → x ∈ l → f x = Ok y → y ∈ ys.
Proof.
  revert ys. induction l as [|a l IH]; intros ys Hys Hin Hx.
  - by apply elem_of_nil in Hin.
  - simpl in Hys. destruct (f a) as [b|e] eqn:Ha; [|done]. simpl in Hys.
    destruct (mapM f l) as [bs|e]; [|done]. simpl in Hys. injection Hys as <-.
    apply elem_of_cons in Hin as [->|Hin].
    + rewrite Hx in Ha. injection Ha as <-. left.
    + right. by apply IH.
Qed.

(** When the scan selects [fit] itself, its source is in the text twice:
    among the captured sources and again after them. *)
Theorem make_class_source_duplicates_fit fit predict srcs fit_src predict_src :
  mapM (λ kv, getsource kv.2) selected_members = Ok srcs →
  getattr obj "fit" = Ok fit → getsource fit = Ok fit_src →
  getattr obj "predict" = Ok predict → getsource predict = Ok predict_src →
  selected (class_name obj) fit = true →
  ∃ earlier later,
    srcs = earlier ++ fit_src :: later
    ∧ _make_class_source obj
      = Ok (join nl (header :: (earlier ++ fit_src :: later)
                            ++ [fit_src; predict_src])).
Proof.
  intros Hscan Hfit Hfit_src Hpredict Hpredict_src Hselected.
  assert (fit_src ∈ srcs) as Hin.
  { apply (mapM_elem_of _ _ _ ("fit", fit) _ Hscan); [|done].
    apply list_elem_of_In, filter_In. split; [|done].
    by apply list_elem_of_In, getattr_member. }
  apply list_elem_of_split in Hin as (earlier & later & ->).
  exists earlier, later. split; [done|].
  by destruct (class_source_text fit predict (earlier ++ fit_src :: later)
                fit_src predict_src).
Qed.

End class_source.

Lemma make_class_source_ok_inv_witness :
  ∃ srcs fit predict fit_src predict_src,
    mapM (λ kv, getsource kv.2)
         (List.filter (λ kv : string * member, selected (class_name sample_obj) kv.2)
                      (getmembers sample_obj)) = Ok srcs
    ∧ getattr sample_obj "fit" = Ok fit ∧ getsource fit = Ok fit_src
    ∧ getattr sample_obj "predict" = Ok predict ∧ getsource predict = Ok predict_src
    ∧ join nl ["class ClassName(torch.nn.Module):";
               fit_text; predict_text; fit_text; predict_text]
      = join nl (("class " +:+ class_name sample_obj +:+ "(torch.nn.Module):")
                 :: srcs ++ [fit_src; predict_src]).
Proof. apply (make_class_source_ok_inv sample_obj). reflexivity. Defined.

(** [fit], then a method without source, then [predict]. *)
Lemma make_class_source_unretrievable_witness :
  _make_class_source
    (instance_with [("fit", fit_member); ("helper", sourceless_member);
                    ("predict", predict_member)])
  = Raise OSError.
Proof.
  apply (make_class_source_unretrievable
           (instance_with [("fit", fit_member); ("helper", sourceless_member);
                           ("predict", predict_member)])
           [("fit", fit_member)] "helper" sourceless_member
           [("predict", predict_member)] [fit_text]); reflexivity.
Defined.

(** An instance with [fit] and a data attribute, without [predict]. *)
Lemma make_class_source_missing_entry_point_witness :
  _make_class_source (instance_with [("count", data_member); ("fit", fit_member)])
  = Raise AttributeError.
Proof.
  apply (make_class_source_missing_entry_point
           (instance_with [("count", data_member); ("fit", fit_member)])
           [fit_text]).
  - reflexivity.
  - right. split.
    + exists fit_member, fit_text. split; reflexivity.
    + repeat constructor; discriminate.
Defined.

Lemma make_class_source_duplicates_fit_witness :
  ∃ earlier later,
    [fit_text; predict_text] = earlier ++ fit_text :: later
    ∧ _make_class_source sample_obj
      = Ok (join nl (("class " +:+ class_name sample_obj +:+ "(torch.nn.Module):")
                     :: (earlier ++ fit_text :: later)
                        ++ [fit_text; predict_text])).
Proof.
  apply (make_class_source_duplicates_fit sample_obj fit_member predict_member);
    reflexivity.
Defined.

(** The lines of the returned text are the lines of the accumulator: when
    the class name has no newline in it, splitting the text at newlines gives
    back the accumulator as it was before the join. *)
Theorem make_class_source_lines obj source_maker :
  contains newline (class_name obj) = false →
  class_source_lines obj = Ok source_maker →
  ∃ text,
    _make_class_source obj = Ok text
    ∧ split newline text = source source_maker.
Proof.
  intros Hname Hlines.
  exists (join nl (source source_maker)). split.
  { unfold _make_class_source. by rewrite Hlines. }
  pose proof Hlines as Hlines'. unfold class_source_lines in Hlines'.
  destruct (scan_members _ _ _) as [sm0|e] eqn:Hscan; [|done].
  destruct (scan_members_inv _ _ _ _ Hscan) as [srcs Hsrcs]. simpl in Hlines'.
  destruct (getattr obj "fit") as [fit|e] eqn:Hfit; [|done]. simpl in Hlines'.
  destruct (getsource fit) as [fit_src|e] eqn:Hfit_src; [|done]. simpl in Hlines'.
  destruct (getattr obj "predict") as [predict|e] eqn:Hpredict; [|done].
  simpl in Hlines'.
  destruct (getsource predict) as [predict_src|e] eqn:Hpredict_src; [|done].
  clear Hlines'.
  destruct (class_source_text obj fit predict srcs fit_src predict_src)
    as [Hspec _]; try done.
  rewrite Hspec in Hlines. injection Hlines as <-. simpl.
  apply (split_join newline); [done|].
  constructor.
  - rewrite !contains_app, Hname. reflexivity.
  - apply Forall_concat, Forall_map, Forall_forall. intros src _.
    apply split_pieces_free.
Qed.

Lemma make_class_source_lines_witness :
  ∃ text,
    _make_class_source sample_obj = Ok text
    ∧ split newline text
      = source {| source :=
                    "class ClassName(torch.nn.Module):"
                    :: concat (map (split newline)
                                 [fit_text; predict_text; fit_text; predict_text]) |}.
Proof.
  apply (make_class_source_lines sample_obj); reflexivity.
Defined.

(** What the scan selects.  For a representation that is fourteen
    characters, whatever they are, followed by [tail], a value is selected
    exactly when it is a method or a function and [tail] goes on with the
    class name; so a method bound to any class whose name begins with the
    class name is selected.  A representation of fewer than fourteen
    characters is selected only for an empty class name. *)
Theorem selected_after_fourteen_characters cls_name value head tail :
  repr value = head +:+ tail →
  length (chars head) = 14 →
  starts_inside_character tail = false →
  (selected cls_name value = true
   ↔ (ismethod value || isfunction value) = true
     ∧ ∃ rest, tail = cls_name +:+ rest)
  ∧ ∀ short,
      length (chars (repr short)) < 14 →
      (selected cls_name short = true
       ↔ (ismethod short || isfunction short) = true ∧ cls_name = EmptyString).
Proof.
  intros Hrepr Hhead Htail. unfold selected, startswith.
  change (String.length "<bound method ") with 14. split.
  - rewrite Hrepr, <- Hhead, (slice_from_app _ _ Htail), andb_true_iff.
    split; intros [Hkind Hprefix]; (split; [done|]).
    + by apply prefix_inv.
    + destruct Hprefix as [rest ->]. apply prefix_app.
  - intros short Hshort. rewrite slice_from_short by lia.
    rewrite andb_true_iff.
    split; intros [Hkind Hprefix]; (split; [done|]).
    + by destruct cls_name.
    + by rewrite Hprefix.
Qed.

(** A function whose qualified name begins with characters outside ASCII:
    [<function ] and four Cyrillic letters are the fourteen characters. *)
Lemma selected_after_fourteen_characters_witness :
  (selected "ClassName" cyrillic_member = true
   ↔ (ismethod cyrillic_member || isfunction cyrillic_member) = true
     ∧ ∃ rest, "ClassName.helper at 0x7f>" = "ClassName" +:+ rest)
  ∧ ∀ short,
      length (chars (repr short)) < 14 →
      (selected "ClassName" short = true
       ↔ (ismethod short || isfunction short) = true ∧ "ClassName" = EmptyString).
Proof.
  apply (selected_after_fourteen_characters "ClassName" cyrillic_member
           "<function База" "ClassName.helper at 0x7f>"); reflexivity.
Defined.

(** ** _make_source, further *)

(** When the module of the object cannot be opened or cannot be parsed, the
    resolver yields nothing and raises the error of [open] or of
    [ast.parse], and the composer raises that same error, whatever its other
    arguments. *)
Theorem make_source_module_unreadable py cs cn im pt se obj e :
  open_read py (class_module obj) = Raise e
  ∨ (∃ text, open_read py (class_module obj) = Ok text
             ∧ ast_parse py text = Raise e) →
  traverse (get_imports py (class_module obj)) = ([], Some e, exhausted)
  ∧ _make_source py cs cn im pt se obj = Raise e.
Proof.
  intros Hunreadable.
  assert (get_imports py (class_module obj) = {| pending := []; ending := Some e |})
    as Hgen.
  { unfold get_imports.
    destruct Hunreadable as [->|(text & -> & ->)]; reflexivity. }
  split.
  - by rewrite traverse_spec, Hgen.
  - unfold _make_source.
    rewrite (for_in_ends_raising (get_imports py (class_module obj)) _ _ e);
      [done|by rewrite Hgen..].
Qed.

(** An interpreter whose [open] wants a path, handed the module object. *)
Lemma make_source_module_unreadable_witness :
  traverse (get_imports sample_project (class_module sample_obj))
  = ([], Some TypeError, exhausted)
  ∧ _make_source sample_project "CLS" "ClassName" (Some "fit")
      sample_pass_through sample_serialized sample_obj
    = Raise TypeError.
Proof.
  apply (make_source_module_unreadable sample_project "CLS" "ClassName"
           (Some "fit") sample_pass_through sample_serialized sample_obj).
  left. reflexivity.
Defined.

(** When the composer returns a script: exactly when the resolver yields
    nothing for the module of the object, the constructor arguments bind,
    and, if a method is to be called, the runtime type of every descriptor
    is in the table. *)
Theorem make_source_ok_iff py cs cn im pt se obj :
  (∃ s, _make_source py cs cn im pt se obj = Ok s)
  ↔ resolver_yields_nothing py obj
    ∧ (∃ bound,
         init_bind_args obj (_constructor_arguments obj).1
                            (_constructor_arguments obj).2 = Ok bound)
    ∧ (im = None ∨ ¬ Exists (unregistered obj) se).
Proof.
  split.
  - intros [s Hs].
    destruct (make_source_ok_inv _ _ _ _ _ _ _ _ Hs) as (Himports & bound & Hbind).
    split; [done|]. split; [by exists bound|].
    destruct im as [method|]; [right|by left]. intros Hex.
    rewrite (make_source_after_imports _ _ _ Himports Hbind) in Hs.
    by rewrite (serialized_loop_unregistered _ _ Hex) in Hs.
  - intros (Himports & [bound Hbind] & Hregistered).
    rewrite (make_source_after_imports _ _ _ Himports Hbind).
    destruct im as [method|]; [|by eexists].
    destruct Hregistered as [|Hregistered]; [done|].
    destruct (registered_or_not obj se) as [Hex|[ds Hds]]; [done|].
    rewrite (serialized_loop_registered _ _ _ Hds). by eexists.
Qed.

(** When the recorded constructor arguments do not bind to the signature of
    the class, the composer raises the error of the binding, with or without
    a method name and before any descriptor is looked up. *)
Theorem make_source_bind_raises py cs cn im pt se obj e :
  resolver_yields_nothing py obj →
  init_bind_args obj (_constructor_arguments obj).1 (_constructor_arguments obj).2
  = Raise e →
  _make_source py cs cn im pt se obj = Raise e.
Proof.
  intros [Hp He]%resolver_yields_nothing_inv Hbind.
  unfold _make_source. rewrite (for_in_empty _ _ _ Hp He). simpl.
  by rewrite Hbind.
Qed.

Lemma make_source_bind_raises_witness :
  _make_source module_without_imports "CLS" "ClassName" (Some "fit")
    sample_pass_through unregistered_serialized unbindable_obj
  = Raise TypeError.
Proof.
  apply (make_source_bind_raises module_without_imports "CLS" "ClassName"
           (Some "fit") sample_pass_through unregistered_serialized
           unbindable_obj); reflexivity.
Defined.

Lemma serialized_loop_extends obj se src src' :
  for_items (render_serialized obj) se src = Ok src' →
  ∃ arguments, src' = src +:+ arguments.
Proof.
  intros Hloop. destruct (registered_or_not obj se) as [Hex|[ds Hds]].
  - by rewrite (serialized_loop_unregistered _ _ Hex) in Hloop.
  - rewrite (serialized_loop_registered _ _ _ Hds) in Hloop.
    injection Hloop as <-. by eexists.
Qed.

(** Every script returned begins with the five lines of the prologue, each
    ended by a newline, then the class source as given, then at once
    [my_model = <class name>(]: the composer puts nothing, no newline
    either, between the class source and the instantiation. *)
Theorem make_source_starts_with_prologue py cs cn im pt se obj s :
  _make_source py cs cn im pt se obj = Ok s →
  ∃ rest,
    s = join nl prologue +:+ nl +:+ cs +:+ "my_model = " +:+ cn +:+ "(" +:+ rest.
Proof.
  intros Hs.
  destruct (make_source_ok_inv _ _ _ _ _ _ _ _ Hs) as (Himports & bound & Hbind).
  rewrite (make_source_after_imports _ _ _ Himports Hbind) in Hs.
  assert (∃ tail, s = script_head cs cn bound +:+ tail) as [tail ->].
  { destruct im as [method|].
    - destruct (for_items _ _ _) as [src|e] eqn:Hloop; [|done].
      apply serialized_loop_extends in Hloop as [arguments ->].
      injection Hs as <-. rewrite pass_through_loop.
      eexists. by rewrite !str_app_assoc.
    - injection Hs as <-. by eexists. }
  unfold script_head.
  rewrite (join_app nl prologue [cs]) by done.
  change (join nl [cs]) with cs.
  eexists. by rewrite !str_app_assoc.
Qed.

Lemma make_source_starts_with_prologue_witness :
  ∃ rest,
    (script_head "CLS" "ClassName" [VObj "ClassName()"; VInt 5; VStr "x"]
     +:+ persist_statement)
    = join nl prologue +:+ nl +:+ "CLS" +:+ "my_model = " +:+ "ClassName"
      +:+ "(" +:+ rest.
Proof.
  apply (make_source_starts_with_prologue module_without_imports "CLS" "ClassName"
           None sample_pass_through sample_serialized sample_obj).
  reflexivity.
Defined.

(** ** The body of the import loop, with [src] bound *)

Lemma drop_last_dot s : drop_last (s +:+ ".") = s.
Proof.
  unfold drop_last. rewrite chars_app by done.
  change (chars ".") with ["."]. by rewrite removelast_last, cat_chars.
Qed.

Lemma dotted_items_loop items : ∀ s,
  items ≠ [] →
  foldl (λ acc item, acc +:+ item +:+ ".") s items = (s +:+ join "." items) +:+ ".".
Proof.
  induction items as [|item items IH]; intros s Hne; [done|].
  simpl. destruct items as [|item' items].
  - simpl. change (join "." [item]) with item. by rewrite !str_app_assoc.
  - rewrite IH by done. rewrite (join_cons "." item (item' :: items)) by done.
    by rewrite !str_app_assoc.
Qed.

Lemma render_field_bound src field keyword :
  field ≠ EmptyString →
  render_field (Some src) field keyword
  = Ok (Some (src +:+ keyword +:+ join "." (chars field))).
Proof.
  intros Hfield. destruct field as [|c field]; [done|].
  pose proof (dotted_items_loop (chars (String c field)) (src +:+ keyword)
                (chars_not_nil c field)) as Hloop.
  unfold render_field.
  change (0 <? String.length (String c field))%nat with true.
  cbv beta iota. change (load_local (Some src)) with (Ok src).
  change (mbind ?f (Ok src)) with (f src). cbv beta zeta.
  rewrite Hloop. by rewrite drop_last_dot, str_app_assoc.
Qed.

Lemma render_field_some src field keyword :
  ∃ src', render_field (Some src) field keyword = Ok (Some src').
Proof.
  destruct field as [|c field]; [by eexists|].
  rewrite render_field_bound by done. by eexists.
Qed.

(** With [src] bound, the body of the import loop reads the first three
    segments of the imported name, whatever the record: it goes through for
    a name of three segments or more, and raises IndexError for a shorter
    one, as that of [import os] or [import os.path]. *)
Theorem render_import_needs_three_segments my_import src :
  (3 ≤ length (name my_import) →
   ∃ text, render_import my_import (Some src) = Ok (Some text))
  ∧ (length (name my_import) < 3 →
     render_import my_import (Some src) = Raise IndexError).
Proof.
  unfold render_import, getitem.
  destruct (name my_import) as [|f0 [|f1 [|f2 rest]]]; simpl;
    split; intros Hlen; try lia.
  - done.
  - by destruct (render_field_some src f0 "from ") as [src0 ->].
  - destruct (render_field_some src f0 "from ") as [src0 ->]. simpl.
    by destruct (render_field_some src0 f1 " import ") as [src1 ->].
  - destruct (render_field_some src f0 "from ") as [src0 ->]. simpl.
    destruct (render_field_some src0 f1 " import ") as [src1 ->]. simpl.
    destruct (render_field_some src1 f2 " as ") as [src2 ->]. simpl.
    by eexists.
Qed.

(** With [src] bound, for a name whose first three segments are not empty
    the body appends [from ], [ import ] and [ as ], each followed by the
    characters of one segment with a dot between every two of them, and a
    newline: the segments are read as if they were the record's fields, and
    each is looped over character by character. *)
Theorem render_import_three_segments my_import src f0 f1 f2 rest :
  name my_import = f0 :: f1 :: f2 :: rest →
  f0 ≠ EmptyString → f1 ≠ EmptyString → f2 ≠ EmptyString →
  render_import my_import (Some src)
  = Ok (Some (src +:+ "from " +:+ join "." (chars f0)
                  +:+ " import " +:+ join "." (chars f1)
                  +:+ " as " +:+ join "." (chars f2) +:+ nl)).
Proof.
  intros Hname H0 H1 H2. unfold render_import, getitem. rewrite Hname. simpl.
  rewrite (render_field_bound src f0 "from " H0). simpl.
  rewrite (render_field_bound _ f1 " import " H1). simpl.
  rewrite (render_field_bound _ f2 " as " H2). simpl.
  by rewrite !str_app_assoc.
Qed.

(** The record of [import café.path.join]: the accented letter is one
    character of the loop. *)
Lemma render_import_three_segments_witness :
  render_import {| module := []; name := ["café"; "path"; "join"]; alias := None |}
                (Some "import sys")
  = Ok (Some ("import sys" +:+ "from " +:+ join "." ["c"; "a"; "f"; "é"]
                +:+ " import " +:+ join "." (chars "path")
                +:+ " as " +:+ join "." (chars "join") +:+ nl)).
Proof.
  apply (render_import_three_segments
           {| module := []; name := ["café"; "path"; "join"]; alias := None |}
           "import sys" "café" "path" "join" []); [reflexivity|discriminate..].
Defined.
